(** * A shallow embedding of [shared/file_io.py]

    [BinaryReader] and [BinaryWriter] wrap a Python binary file object and
    read or write big-endian primitive values at given offsets.  The
    development models

    - the file object ([open(path, 'rb')] / [open(path, 'wb+')]) as a byte
      list with a cursor,
    - the part of the [struct] module the code uses (the eight format
      strings ['>B' '>H' '>I' '>b' '>h' '>i' '>f' '>d']),
    - Python exceptions as an error result threaded with the file state,

    and then states and proves the properties of the accessor. *)

From Stdlib Require Import ZArith List String Ascii Lia Bool.
From Stdlib Require Import Strings.Byte Floats.SpecFloat.
From stdpp Require Import base tactics option list gmap strings.

Local Open Scope Z_scope.

(** ** Python values and exceptions *)

(** A Python [str] is a sequence of Unicode code points. *)
Definition codepoint := N.
Definition pystr := list codepoint.

(** The values that flow through [read] and [write].  A Python [float] is an
    IEEE 754 binary64 number; NaN payloads are not distinguished. *)
Inductive pyobj : Type :=
  | PyInt (z : Z)
  | PyFloat (x : spec_float)
  | PyStr (s : pystr)
  | PyBytes (b : list byte).

(** The exceptions the code and the library calls it makes can raise. *)
Inductive exn : Type :=
  | ValueError (msg : string)
  | OSError
  | StructError            (* struct.error *)
  | OverflowError
  | IndexError
  | TypeError
  | UnicodeEncodeError
  | KeyError (key : string).

Inductive result (A : Type) : Type :=
  | Ok (a : A)
  | Raise (e : exn).
Arguments Ok {A} a.
Arguments Raise {A} e.

Definition is_ok {A} (r : result A) : bool :=
  match r with Ok _ => true | Raise _ => false end.

(** ** The file object *)

(** [content] is what the file holds, [pos] the cursor of the file object.
    File offsets are unbounded here (the platform's [off_t] limit is not
    modelled). *)
Record file : Type := File { content : list byte; pos : nat }.

(** A freshly opened ['wb+'] file: created or truncated, cursor at 0. *)
Definition fresh : file := File [] 0.

(** Computations on the file: a result, and the file afterwards (an
    exception leaves the file as it was when it was raised). *)
Definition M (A : Type) : Type := file -> result A * file.

#[global] Instance M_ret : MRet M := fun A a f => (Ok a, f).
#[global] Instance M_bind : MBind M := fun A B k m f =>
  match m f with
  | (Ok a, f') => k a f'
  | (Raise e, f') => (Raise e, f')
  end.

Definition raise {A} (e : exn) : M A := fun f => (Raise e, f).

(** [file.seek(offset, whence)] with [whence] 0 (start) or 1 (current):
    a negative target is refused with [OSError]; a target past the end is
    accepted. *)
Definition file_seek (offset : Z) (whence : Z) : M Z := fun f =>
  let target := if decide (whence = 1) then Z.of_nat (pos f) + offset else offset in
  if decide (target < 0) then (Raise OSError, f)
  else (Ok target, File (content f) (Z.to_nat target)).

(** [file.tell()] *)
Definition file_tell : M Z := fun f => (Ok (Z.of_nat (pos f)), f).

(** [file.read(size)]: up to [size] bytes from the cursor, fewer at the end
    of the file; [-1] reads to the end; the cursor moves past what was
    read. *)
Definition file_read (size : Z) : M (list byte) := fun f =>
  if decide (size < -1)
  then (Raise (ValueError "read length must be non-negative or -1"), f)
  else
    let rest := drop (pos f) (content f) in
    let data := if decide (size = -1) then rest else take (Z.to_nat size) rest in
    (Ok data, File (content f) (pos f + length data)).

(** [file.write(data)]: the bytes replace what is at the cursor and extend
    the file as needed; a gap between the end of the file and the cursor is
    filled with zero bytes; the cursor moves past what was written and the
    byte count is returned. *)
Definition file_write (data : list byte) : M Z := fun f =>
  match data with
  | [] => (Ok 0, f)
  | _ =>
    let padded := content f ++ replicate (pos f - length (content f)) x00 in
    (Ok (Z.of_nat (length data)),
     File (take (pos f) padded ++ data ++ drop (pos f + length data) (content f))
          (pos f + length data))
  end.

(** ** Bytes and big-endian integers *)

Definition Z_of_byte (b : byte) : Z := Z.of_N (Byte.to_N b).

Definition byte_of_Z (z : Z) : byte :=
  match Byte.of_N (Z.to_N z) with
  | Some b => b
  | None => x00
  end.

(** The [n] low-order bytes of [v], most significant first. *)
Fixpoint be_bytes (n : nat) (v : Z) : list byte :=
  match n with
  | O => []
  | S k => byte_of_Z ((v / 256 ^ Z.of_nat k) mod 256) :: be_bytes k v
  end.

(** The unsigned number a byte string denotes, most significant first. *)
Definition be_value (bs : list byte) : Z :=
  fold_left (fun acc b => acc * 256 + Z_of_byte b) bs 0.

(** ** IEEE 754 interchange formats *)

(** [mw] is the width of the trailing significand field and [ew] the width
    of the exponent field: 23 and 8 for binary32, 52 and 11 for binary64.
    Floats are [spec_float]s in the format [prec = mw + 1],
    [emax = 2 ^ (ew - 1)]. *)
Section IEEE754.
Variables mw ew : Z.

Definition fprec : Z := mw + 1.
Definition femax : Z := 2 ^ (ew - 1).
Definition femin : Z := emin fprec femax.

Definition sign_bit (s : bool) : Z := if s then 2 ^ (mw + ew) else 0.

(** The bit pattern of a float of the format, as a number below
    [2 ^ (mw + ew + 1)].  NaN is the default quiet NaN. *)
Definition bits_of_float (x : spec_float) : Z :=
  match x with
  | S754_zero s => sign_bit s
  | S754_infinity s => sign_bit s + (2 ^ ew - 1) * 2 ^ mw
  | S754_nan => (2 ^ ew - 1) * 2 ^ mw + 2 ^ (mw - 1)
  | S754_finite s m e =>
    if 2 ^ mw <=? Z.pos m
    then sign_bit s + (e - femin + 1) * 2 ^ mw + (Z.pos m - 2 ^ mw)
    else sign_bit s + Z.pos m
  end.

(** The float a bit pattern denotes. *)
Definition float_of_bits (x : Z) : spec_float :=
  let s := 2 ^ (mw + ew) <=? x in
  let ex := (x / 2 ^ mw) mod 2 ^ ew in
  let mx := x mod 2 ^ mw in
  if ex =? 0 then
    match mx with
    | Z.pos m => S754_finite s m femin
    | _ => S754_zero s
    end
  else if ex =? 2 ^ ew - 1 then
    if mx =? 0 then S754_infinity s else S754_nan
  else
    match mx + 2 ^ mw with
    | Z.pos m => S754_finite s m (ex + femin - 1)
    | _ => S754_nan
    end.

(** Conversion of a float of any format to this one, rounding to nearest,
    ties to even (what a C cast between [float] and [double] does). *)
Definition convert (x : spec_float) : spec_float :=
  match x with
  | S754_finite s m e => binary_normalize fprec femax (cond_Zopp s (Z.pos m)) e s
  | _ => x
  end.

(** The floats of the format. *)
Definition is_float (x : spec_float) : bool := valid_binary fprec femax x.
End IEEE754.

Definition is_nan (x : spec_float) : bool :=
  match x with S754_nan => true | _ => false end.
Definition is_inf (x : spec_float) : bool :=
  match x with S754_infinity _ => true | _ => false end.

(** ** The [struct] module *)

Module Struct.

(** The format characters the code uses, each after ['>'] (big-endian,
    standard sizes). *)
Inductive format : Type := fB | fH | fI | fb | fh | fi | ff | fd.

Definition parse (fmt : string) : option format :=
  if decide (fmt = ">B") then Some fB
  else if decide (fmt = ">H") then Some fH
  else if decide (fmt = ">I") then Some fI
  else if decide (fmt = ">b") then Some fb
  else if decide (fmt = ">h") then Some fh
  else if decide (fmt = ">i") then Some fi
  else if decide (fmt = ">f") then Some ff
  else if decide (fmt = ">d") then Some fd
  else None.

(** [struct.calcsize] *)
Definition calcsize (c : format) : nat :=
  match c with
  | fB | fb => 1
  | fH | fh => 2
  | fI | fi | ff => 4
  | fd => 8
  end%nat.

Definition is_signed (c : format) : bool :=
  match c with fb | fh | fi => true | _ => false end.

Definition is_integer (c : format) : bool :=
  match c with ff | fd => false | _ => true end.

(** The least and the greatest integer an integer format packs. *)
Definition min_int (c : format) : Z :=
  if is_signed c then - 2 ^ (8 * Z.of_nat (calcsize c) - 1) else 0.
Definition max_int (c : format) : Z :=
  if is_signed c then 2 ^ (8 * Z.of_nat (calcsize c) - 1) - 1
  else 2 ^ (8 * Z.of_nat (calcsize c)) - 1.

(** The argument of a float format as a C double: a float as it is, an
    integer converted (rounded to nearest), anything else refused with
    [struct.error]; an integer too large for a double is refused in the
    same way ("required argument is not a float"). *)
Definition as_double (v : pyobj) : result spec_float :=
  match v with
  | PyFloat x => Ok x
  | PyInt z =>
    let x := binary_normalize (fprec 52) (femax 11) z 0 false in
    if is_inf x then Raise StructError else Ok x
  | _ => Raise StructError
  end.

(** [struct.pack(fmt, v)] for a format of one item.  A value too large for
    binary32 raises [OverflowError] when the argument is a float; for an
    integer argument [struct.pack] turns it into [struct.error] ("int too
    large to convert"). *)
Definition pack (fmt : string) (v : pyobj) : result (list byte) :=
  match parse fmt with
  | None => Raise StructError
  | Some ff =>
    match as_double v with
    | Raise e => Raise e
    | Ok x =>
      let y := convert 23 8 x in
      if is_inf y && negb (is_inf x)
      then Raise (match v with PyInt _ => StructError | _ => OverflowError end)
      else Ok (be_bytes 4 (bits_of_float 23 8 y))
    end
  | Some fd =>
    match as_double v with
    | Raise e => Raise e
    | Ok x => Ok (be_bytes 8 (bits_of_float 52 11 x))
    end
  | Some c =>
    match v with
    | PyInt z =>
      if (min_int c <=? z) && (z <=? max_int c)
      then Ok (be_bytes (calcsize c) (z mod 2 ^ (8 * Z.of_nat (calcsize c))))
      else Raise StructError
    | _ => Raise StructError
    end
  end.

(** [struct.unpack(fmt, buffer)] for a format of one item: the buffer must
    have exactly the size of the format; the result is a tuple of one
    value. *)
Definition unpack (fmt : string) (buffer : list byte) : result (list pyobj) :=
  match parse fmt with
  | None => Raise StructError
  | Some c =>
    if negb (length buffer =? calcsize c)%nat then Raise StructError
    else
      let u := be_value buffer in
      match c with
      | ff => Ok [PyFloat (convert 52 11 (float_of_bits 23 8 u))]
      | fd => Ok [PyFloat (float_of_bits 52 11 u)]
      | _ =>
        if is_signed c && (2 ^ (8 * Z.of_nat (calcsize c) - 1) <=? u)
        then Ok [PyInt (u - 2 ^ (8 * Z.of_nat (calcsize c)))]
        else Ok [PyInt u]
      end
  end.

End Struct.

(** Indexing a tuple or a [bytes] object with 0. *)
Definition item0 {A} (l : list A) : result A :=
  match l with
  | x :: _ => Ok x
  | [] => Raise IndexError
  end.

(** Lifting a pure result into a file computation. *)
Definition lift {A} (r : result A) : M A := fun f => (r, f).

(** [chr(b)] of a byte and [bytes(s, 'ascii')]. *)
Definition chr (b : byte) : codepoint := Byte.to_N b.

Fixpoint encode_ascii (s : pystr) : result (list byte) :=
  match s with
  | [] => Ok []
  | c :: s' =>
    if (c <? 128)%N then
      match encode_ascii s' with
      | Ok bs => Ok (byte_of_Z (Z.of_N c) :: bs)
      | Raise e => Raise e
      end
    else Raise UnicodeEncodeError
  end.

Definition bytes_ascii (data : pyobj) : result (list byte) :=
  match data with
  | PyStr s => encode_ascii s
  | _ => Raise TypeError
  end.

(** [s.endswith(suffix)] *)
Definition endswith (s suffix : string) : bool :=
  let n := String.length s in
  let k := String.length suffix in
  (k <=? n)%nat && String.eqb (substring (n - k) k s) suffix.

(** ** BinaryReader *)

Module BinaryReader.

(** [seek(self, offset, whence='start')] *)
Definition seek (offset : Z) (whence : string) : M unit :=
  if decide (whence = "start") then
    _ ← file_seek offset 0; mret tt
  else if decide (whence = "current") then
    _ ← file_seek offset 1; mret tt
  else
    raise (ValueError ("Invalid value for `whence`: " +:+ whence)).

(** [tell(self)] *)
Definition tell : M Z := file_tell.

(** [read_chunk(self, offset, size, whence='start')] *)
Definition read_chunk (offset size : Z) (whence : string) : M (list byte) :=
  _ ← seek offset whence; file_read size.

(** [struct.unpack(fmt, self.file.read(size))[0]] *)
Definition unpack_from_file (fmt : string) (size : Z) : M pyobj :=
  buffer ← file_read size;
  items ← lift (Struct.unpack fmt buffer);
  lift (item0 items).

(** The [while] loop of [_read_string]: [nextChar] is the byte read last,
    [s] the string so far, [rest] what the file holds after the cursor [p].
    [self.file.read(1)] at the end of the file gives [b''], whose item 0
    does not exist. *)
Fixpoint _read_string_while (rest : list byte) (s : pystr) (nextChar : byte)
    (p : nat) : result pystr * nat :=
  if decide (Z_of_byte nextChar = 0) then (Ok s, p)
  else
    match rest with
    | [] => (Raise IndexError, p)
    | b :: rest' => _read_string_while rest' (s ++ [chr nextChar]) b (S p)
    end.

(** [_read_string(self)] *)
Definition _read_string : M pyobj := fun f =>
  match drop (pos f) (content f) with
  | [] => (Raise IndexError, f)
  | b :: rest =>
    let '(r, p) := _read_string_while rest [] b (S (pos f)) in
    (match r with Ok s => Ok (PyStr s) | Raise e => Raise e end,
     File (content f) p)
  end.

(** [read(self, type, base, offset=0, whence='start')] *)
Definition read (type : string) (base offset : Z) (whence : string) : M pyobj :=
  _ ← seek (base + offset) whence;
  if decide (type = "uchar") then unpack_from_file ">B" 1
  else if decide (type = "ushort") then unpack_from_file ">H" 2
  else if decide (type = "uint") then unpack_from_file ">I" 4
  else if decide (type = "char") then unpack_from_file ">b" 1
  else if decide (type = "short") then unpack_from_file ">h" 2
  else if decide (type = "int") then unpack_from_file ">i" 4
  else if decide (type = "float") then unpack_from_file ">f" 4
  else if decide (type = "double") then unpack_from_file ">d" 8
  else if decide (type = "string") then _read_string
  else raise (ValueError ("Invalid value for arg `type`: " +:+ type)).

(** [is_primitive(type)] *)
Definition is_primitive (type : string) : bool :=
  bool_decide (type ∈ ["uchar"; "ushort"; "uint";
                       "char"; "short"; "int";
                       "float"; "double"; "string"]).

(** [primitive_size(type)]; indexing the dictionary with a missing key
    raises [KeyError]. *)
Definition primitive_sizes : gmap string Z :=
  <["uchar" := 1]> (<["char" := 1]> (<["ushort" := 2]> (<["short" := 2]>
  (<["uint" := 4]> (<["int" := 4]> (<["float" := 4]> (<["double" := 8]> ∅))))))).

Definition primitive_size (type : string) : result Z :=
  if decide (type = "string") then Ok 0
  else if negb (is_primitive type) then Ok 0
  else
    match primitive_sizes !! type with
    | Some n => Ok n
    | None => Raise (KeyError type)
    end.

(** [is_array(type)] and [is_pointer(type)] *)
Definition is_array (type : string) : bool := endswith type "[]".
Definition is_pointer (type : string) : bool := endswith type "*".

End BinaryReader.

(** ** BinaryWriter *)

(** The writer's file is opened ['wb+'], so it reads as well as writes; the
    class inherits every method of [BinaryReader]. *)
Module BinaryWriter.

(** [self.file.write(struct.pack(fmt, data))] *)
Definition pack_to_file (fmt : string) (data : pyobj) : M Z :=
  buffer ← lift (Struct.pack fmt data);
  file_write buffer.

(** [write(self, type, data, base, offset=0, whence='start')] *)
Definition write (type : string) (data : pyobj) (base offset : Z)
    (whence : string) : M Z :=
  _ ← BinaryReader.seek (base + offset) whence;
  if decide (type = "uchar") then pack_to_file ">B" data
  else if decide (type = "ushort") then pack_to_file ">H" data
  else if decide (type = "uint") then pack_to_file ">I" data
  else if decide (type = "char") then pack_to_file ">b" data
  else if decide (type = "short") then pack_to_file ">h" data
  else if decide (type = "int") then pack_to_file ">i" data
  else if decide (type = "float") then pack_to_file ">f" data
  else if decide (type = "double") then pack_to_file ">d" data
  else if decide (type = "string") then
    buffer ← lift (bytes_ascii data);
    file_write (buffer ++ [x00])
  else raise (ValueError ("Invalid value for arg `type`: " +:+ type)).

(** [write_chunk(self, data, offset, whence='start')] *)
Definition write_chunk (data : list byte) (offset : Z) (whence : string) : M Z :=
  _ ← BinaryReader.seek offset whence;
  file_write data.

End BinaryWriter.

(** ** Vocabulary of the properties *)

(** How many of the three classifications hold of a descriptor. *)
Definition classifications (type : string) : nat :=
  (Nat.b2n (BinaryReader.is_primitive type)
   + Nat.b2n (BinaryReader.is_array type)
   + Nat.b2n (BinaryReader.is_pointer type))%nat.

(** The last character of a string. *)
Fixpoint last_char (s : string) : option ascii :=
  match s with
  | EmptyString => None
  | String c EmptyString => Some c
  | String _ s' => last_char s'
  end.

(** The range of each fixed-width integer descriptor. *)
Definition int_range (type : string) : option (Z * Z) :=
  if decide (type = "uchar") then Some (0, 255)
  else if decide (type = "ushort") then Some (0, 65535)
  else if decide (type = "uint") then Some (0, 4294967295)
  else if decide (type = "char") then Some (-128, 127)
  else if decide (type = "short") then Some (-32768, 32767)
  else if decide (type = "int") then Some (-2147483648, 2147483647)
  else None.

(** The values that survive a write followed by a read: the integers of the
    integer descriptor's range, the binary32 numbers (as Python floats) for
    ['float'], and the Python floats for ['double'], NaN apart (a NaN is
    equal to nothing). *)
Inductive representable : string -> pyobj -> Prop :=
  | rep_int type lo hi z :
      int_range type = Some (lo, hi) -> lo <= z <= hi ->
      representable type (PyInt z)
  | rep_float y :
      is_float 23 8 y = true -> is_nan y = false ->
      representable "float" (PyFloat (convert 52 11 y))
  | rep_double x :
      is_float 52 11 x = true -> is_nan x = false ->
      representable "double" (PyFloat x).

(** The format string [read] and [write] use for each fixed-width
    descriptor. *)
Inductive fixed_format : string -> string -> Struct.format -> Prop :=
  | fmt_uchar : fixed_format "uchar" ">B" Struct.fB
  | fmt_ushort : fixed_format "ushort" ">H" Struct.fH
  | fmt_uint : fixed_format "uint" ">I" Struct.fI
  | fmt_char : fixed_format "char" ">b" Struct.fb
  | fmt_short : fixed_format "short" ">h" Struct.fh
  | fmt_int : fixed_format "int" ">i" Struct.fi
  | fmt_float : fixed_format "float" ">f" Struct.ff
  | fmt_double : fixed_format "double" ">d" Struct.fd.

(** The binary32 number [1.5]. *)
Definition three_halves : spec_float := float_of_bits 23 8 0x3FC00000.

(** The Python float [0.1], and the least positive normal and the greatest
    finite binary32 numbers as Python floats. *)
Definition tenth : spec_float := float_of_bits 52 11 0x3FB999999999999A.
Definition flt_min : spec_float := convert 52 11 (float_of_bits 23 8 0x00800000).
Definition flt_max : spec_float := convert 52 11 (float_of_bits 23 8 0x7F7FFFFF).

(** A number of the narrower format in the wider one of precision [prec2]:
    the mantissa is shifted left until it has [prec2] digits. *)
Definition widen_shift (prec2 : Z) (m : positive) : Z :=
  prec2 - Z.pos (digits2_pos m).

Definition widen_mantissa (prec2 : Z) (m : positive) : positive :=
  match widen_shift prec2 m with
  | Z.pos p => Pos.iter xO m p
  | _ => m
  end.

(** A file computation that leaves the content of the file as it is,
    whatever it returns or raises. *)
Definition read_only {A : Type} (m : M A) : Prop :=
  forall f : file, content (snd (m f)) = content f.

(** Whether a value is a float NaN. *)
Definition is_nan_value (v : pyobj) : bool :=
  match v with
  | PyFloat x => is_nan x
  | _ => false
  end.

(** A float whose value is the integer [z]: zero, or a mantissa [m] and an
    exponent [e <= 0] with [m * 2 ^ e = z]. *)
Definition float_equals_int (x : spec_float) (z : Z) : Prop :=
  match x with
  | S754_zero _ => z = 0
  | S754_finite s m e => e <= 0 /\ cond_Zopp s (Z.pos m) = z * 2 ^ (- e)
  | _ => False
  end.

(** * Properties *)

Import BinaryReader BinaryWriter.

(** ** The accessor on concrete files *)

Example write_string_abc :
  read_chunk 10 4 "start"
    (snd (write "string" (PyStr [97; 98; 99]%N) 10 0 "start" fresh))
  = (Ok [x61; x62; x63; x00],
     File [x00; x00; x00; x00; x00; x00; x00; x00; x00; x00;
           x61; x62; x63; x00] 14).
Proof. reflexivity. Qed.

Example write_char_negative :
  write "char" (PyInt (-1)) 0 0 "start" fresh = (Ok 1, File [xff] 1).
Proof. reflexivity. Qed.

Example read_uint_past_end :
  read "uint" 0 0 "start" (File [x01; x02] 0)
  = (Raise StructError, File [x01; x02] 2).
Proof. reflexivity. Qed.

Example read_string_unterminated :
  read "string" 0 0 "start" (File [x61; x62] 0)
  = (Raise IndexError, File [x61; x62] 2).
Proof. reflexivity. Qed.

Example seek_negative : seek (-1) "start" fresh = (Raise OSError, fresh).
Proof. reflexivity. Qed.

Example seek_whence_end :
  seek 0 "end" fresh
  = (Raise (ValueError "Invalid value for `whence`: end"), fresh).
Proof. reflexivity. Qed.

Example classification_examples :
  is_array "uint[]" = true /\ is_pointer "uint*" = true /\
  is_primitive "uint[]" = false /\ is_primitive "string" = true.
Proof. repeat split. Qed.

Example write_float_too_large :
  fst (write "float" (PyFloat (float_of_bits 52 11 0x7FEFFFFFFFFFFFFF))
         0 0 "start" fresh)
  = Raise OverflowError.
Proof. vm_compute. reflexivity. Qed.

Example write_int_too_large :
  fst (write "float" (PyInt (10 ^ 40)) 0 0 "start" fresh) = Raise StructError /\
  fst (write "double" (PyInt (2 ^ 1024)) 0 0 "start" fresh) = Raise StructError.
Proof. split; vm_compute; reflexivity. Qed.

(** ** Bytes *)

Lemma Z_of_byte_range (b : byte) : 0 <= Z_of_byte b < 256.
Proof.
  unfold Z_of_byte. pose proof (Byte.to_N_bounded b). lia.
Qed.

Lemma Z_of_byte_of_Z (z : Z) : 0 <= z < 256 -> Z_of_byte (byte_of_Z z) = z.
Proof.
  intros Hz. unfold Z_of_byte, byte_of_Z.
  destruct (Byte.of_N (Z.to_N z)) as [b|] eqn:E.
  - apply Byte.to_of_N in E. rewrite E. lia.
  - apply Byte.of_N_None_iff in E. lia.
Qed.

Lemma length_be_bytes (n : nat) (v : Z) : length (be_bytes n v) = n.
Proof. induction n as [|n IH]; simpl; congruence. Qed.

Lemma fold_be_bytes (n : nat) (v acc : Z) :
  fold_left (fun a b => a * 256 + Z_of_byte b) (be_bytes n v) acc
  = acc * 256 ^ Z.of_nat n + v mod 256 ^ Z.of_nat n.
Proof.
  revert acc. induction n as [|n IH]; intros acc.
  - simpl. rewrite Z.mod_1_r. lia.
  - cbn [be_bytes fold_left]. rewrite IH.
    rewrite Z_of_byte_of_Z by (apply Z.mod_pos_bound; lia).
    rewrite Nat2Z.inj_succ, Z.pow_succ_r by lia.
    assert (Hp : 0 < 256 ^ Z.of_nat n) by (apply Z.pow_pos_nonneg; lia).
    rewrite (Z.mul_comm 256 (256 ^ Z.of_nat n)).
    rewrite (Z.rem_mul_r v (256 ^ Z.of_nat n) 256) by lia.
    lia.
Qed.

Lemma be_value_be_bytes (n : nat) (v : Z) :
  be_value (be_bytes n v) = v mod 256 ^ Z.of_nat n.
Proof. unfold be_value. rewrite fold_be_bytes. lia. Qed.

Lemma be_value_be_bytes_small (n : nat) (v : Z) :
  0 <= v < 256 ^ Z.of_nat n -> be_value (be_bytes n v) = v.
Proof. intros H. rewrite be_value_be_bytes. apply Z.mod_small, H. Qed.

(** ** The file object *)

(** Unfolding the plumbing of file computations. *)
Ltac unfold_M := unfold mbind, M_bind, mret, M_ret, raise, lift.

Lemma bind_ok {A B : Type} (m : M A) (k : A -> M B) (f f' : file) (a : A) :
  m f = (Ok a, f') -> (m ≫= k) f = k a f'.
Proof. intros H. unfold_M. rewrite H. reflexivity. Qed.

Lemma bind_raise {A B : Type} (m : M A) (k : A -> M B) (f f' : file) (e : exn) :
  m f = (Raise e, f') -> (m ≫= k) f = (Raise e, f').
Proof. intros H. unfold_M. rewrite H. reflexivity. Qed.

Lemma seek_start (offset : Z) (f : file) :
  0 <= offset ->
  seek offset "start" f = (Ok tt, File (content f) (Z.to_nat offset)).
Proof.
  intros H. unfold seek, file_seek; unfold_M. simpl.
  destruct (decide (offset < 0)); [lia | reflexivity].
Qed.

Lemma seek_current (offset : Z) (f : file) :
  0 <= Z.of_nat (pos f) + offset ->
  seek offset "current" f
  = (Ok tt, File (content f) (Z.to_nat (Z.of_nat (pos f) + offset))).
Proof.
  intros H. unfold seek, file_seek; unfold_M. simpl.
  destruct (decide (Z.of_nat (pos f) + offset < 0)); [lia | reflexivity].
Qed.

Lemma seek_start_negative (offset : Z) (f : file) :
  offset < 0 -> seek offset "start" f = (Raise OSError, f).
Proof.
  intros H. unfold seek, file_seek; unfold_M. simpl.
  destruct (decide (offset < 0)); [reflexivity | lia].
Qed.

Lemma seek_current_negative (offset : Z) (f : file) :
  Z.of_nat (pos f) + offset < 0 -> seek offset "current" f = (Raise OSError, f).
Proof.
  intros H. unfold seek, file_seek; unfold_M. simpl.
  destruct (decide (Z.of_nat (pos f) + offset < 0)); [reflexivity | lia].
Qed.

Lemma seek_bad_whence (offset : Z) (whence : string) (f : file) :
  whence <> "start" -> whence <> "current" ->
  seek offset whence f
  = (Raise (ValueError ("Invalid value for `whence`: " +:+ whence)), f).
Proof.
  intros H1 H2. unfold seek.
  destruct (decide (whence = "start")); [contradiction|].
  destruct (decide (whence = "current")); [contradiction|]. reflexivity.
Qed.

(** The three outcomes of [seek]: the position is accepted, the target is
    before the start of the file, or [whence] is not one of the two names. *)
Lemma seek_cases (offset : Z) (whence : string) (f : file) :
  let target :=
    (if decide (whence = "current") then Z.of_nat (pos f) else 0) + offset in
  ((whence = "start" \/ whence = "current") /\ 0 <= target /\
   seek offset whence f = (Ok tt, File (content f) (Z.to_nat target))) \/
  ((whence = "start" \/ whence = "current") /\ target < 0 /\
   seek offset whence f = (Raise OSError, f)) \/
  (whence <> "start" /\ whence <> "current" /\
   seek offset whence f
   = (Raise (ValueError ("Invalid value for `whence`: " +:+ whence)), f)).
Proof.
  intros target. subst target.
  destruct (decide (whence = "current")) as [->|Hc].
  - destruct (Z_lt_le_dec (Z.of_nat (pos f) + offset) 0) as [Hneg|Hpos].
    + right; left. split; [right; reflexivity|]. split; [exact Hneg|].
      apply seek_current_negative, Hneg.
    + left. split; [right; reflexivity|]. split; [exact Hpos|].
      apply seek_current, Hpos.
  - destruct (decide (whence = "start")) as [->|Hs].
    + rewrite Z.add_0_l.
      destruct (Z_lt_le_dec offset 0) as [Hneg|Hpos].
      * right; left. split; [left; reflexivity|]. split; [exact Hneg|].
        apply seek_start_negative, Hneg.
      * left. split; [left; reflexivity|]. split; [exact Hpos|].
        apply seek_start, Hpos.
    + right; right. split; [exact Hs|]. split; [exact Hc|].
      apply seek_bad_whence; assumption.
Qed.

(** What a successful [seek] did: the content is untouched and the cursor
    is where [whence] and [offset] say. *)
Lemma seek_ok_inv (offset : Z) (whence : string) (f f' : file) :
  seek offset whence f = (Ok tt, f') ->
  content f' = content f /\
  ((whence = "start" /\ 0 <= offset /\ Z.of_nat (pos f') = offset) \/
   (whence = "current" /\ 0 <= Z.of_nat (pos f) + offset /\
    Z.of_nat (pos f') = Z.of_nat (pos f) + offset)).
Proof.
  unfold seek, file_seek; unfold_M.
  destruct (decide (whence = "start")) as [->|Hs].
  - simpl. destruct (decide (offset < 0)); intros [= <-]; simpl.
    split; [reflexivity | left; repeat split; lia].
  - destruct (decide (whence = "current")) as [->|Hc]; [|discriminate].
    simpl. destruct (decide (Z.of_nat (pos f) + offset < 0)); intros [= <-]; simpl.
    split; [reflexivity | right; repeat split; lia].
Qed.

(** A failing [seek] leaves the file as it was. *)
Lemma seek_raise_inv (offset : Z) (whence : string) (f f' : file) (e : exn) :
  seek offset whence f = (Raise e, f') -> f' = f.
Proof.
  unfold seek, file_seek; unfold_M.
  repeat case_decide; simpl; repeat case_decide; congruence.
Qed.

Lemma file_read_nonneg (size : Z) (f : file) :
  0 <= size ->
  file_read size f
  = (Ok (take (Z.to_nat size) (drop (pos f) (content f))),
     File (content f)
          (pos f + length (take (Z.to_nat size) (drop (pos f) (content f))))).
Proof.
  intros H. unfold file_read.
  destruct (decide (size < -1)); [lia|].
  destruct (decide (size = -1)); [lia|]. reflexivity.
Qed.

(** After a write, the file holds the written bytes at the old cursor. *)
Lemma file_write_at (data : list byte) (c : list byte) (p : nat) :
  data <> [] ->
  exists c',
    file_write data (File c p)
    = (Ok (Z.of_nat (length data)), File c' (p + length data)) /\
    drop p c' = data ++ drop (p + length data) c /\
    take p c' = take p (c ++ replicate (p - length c) x00).
Proof.
  intros Hne. unfold file_write. simpl.
  destruct data as [|b data]; [congruence|].
  eexists. split; [reflexivity|].
  assert (Hlen : length (take p (c ++ replicate (p - length c) x00)) = p).
  { rewrite length_take, length_app, length_replicate. lia. }
  split.
  - rewrite drop_app_length'; [reflexivity | symmetry; exact Hlen].
  - rewrite take_app_length'; [reflexivity | symmetry; exact Hlen].
Qed.

(** Reading back, from the same offset, as many bytes as were written. *)
Lemma read_back (data c' tail : list byte) (p : nat) :
  drop p c' = data ++ tail ->
  file_read (Z.of_nat (length data)) (File c' p)
  = (Ok data, File c' (p + length data)).
Proof.
  intros Hd. rewrite file_read_nonneg by lia. simpl.
  rewrite Hd, Nat2Z.id, take_app_length. reflexivity.
Qed.

(** ** Positioning *)

(** C7: after [seek(X, 'start')], [tell()] returns [X]; after a following
    [seek(Y, 'current')], [tell()] returns [X + Y] (for [X] and [X + Y]
    non-negative). *)
Theorem seek_tell (X Y : Z) (f : file) :
  0 <= X -> 0 <= X + Y ->
  exists f1 f2,
    seek X "start" f = (Ok tt, f1) /\
    tell f1 = (Ok X, f1) /\
    seek Y "current" f1 = (Ok tt, f2) /\
    tell f2 = (Ok (X + Y), f2).
Proof.
  intros HX HXY.
  exists (File (content f) (Z.to_nat X)).
  exists (File (content f) (Z.to_nat (X + Y))).
  split; [apply seek_start; exact HX|].
  split; [unfold tell, file_tell; simpl; f_equal; f_equal; lia|].
  split.
  - rewrite seek_current by (simpl; lia). simpl. do 3 f_equal. lia.
  - unfold tell, file_tell; simpl. f_equal; f_equal; lia.
Qed.

Lemma seek_tell_witness :
  exists f1 f2,
    seek 5 "start" fresh = (Ok tt, f1) /\
    tell f1 = (Ok 5, f1) /\
    seek (-3) "current" f1 = (Ok tt, f2) /\
    tell f2 = (Ok (5 + -3), f2).
Proof. apply (seek_tell 5 (-3) fresh); lia. Defined.

(** ** Raw chunks *)

(** C2 (as amended): [read_chunk] returns the bytes from the seeked position,
    [size] of them when that many are there and otherwise the shorter rest
    of the file, without an error. *)
Theorem read_chunk_upto (offset size : Z) (whence : string) (f f' : file) :
  seek offset whence f = (Ok tt, f') ->
  0 <= size ->
  let available := drop (pos f') (content f) in
  let data := take (Z.to_nat size) available in
  read_chunk offset size whence f
  = (Ok data, File (content f) (pos f' + length data)) /\
  Z.of_nat (length data) = Z.min size (Z.of_nat (length available)).
Proof.
  intros Hseek Hsize available data.
  destruct (seek_ok_inv _ _ _ _ Hseek) as [Hc _].
  split.
  - unfold read_chunk. rewrite (bind_ok _ _ _ _ _ Hseek).
    rewrite file_read_nonneg by exact Hsize. rewrite Hc. reflexivity.
  - subst data. rewrite length_take. lia.
Qed.

Lemma read_chunk_upto_witness :
  read_chunk 1 2 "start" (File [x0a; x0b; x0c; x0d] 0)
  = (Ok [x0b; x0c], File [x0a; x0b; x0c; x0d] 3) /\
  Z.of_nat (length [x0b; x0c]) = Z.min 2 3.
Proof.
  apply (read_chunk_upto 1 2 "start" (File [x0a; x0b; x0c; x0d] 0)
           (File [x0a; x0b; x0c; x0d] 1)); [reflexivity | lia].
Defined.

(** C2 as stated fails: with two bytes in the file, a chunk of four is
    asked for and the two bytes are returned, with no error. *)
Lemma read_chunk_short_read :
  (length (drop 0 [x01; x02]) < 4)%nat /\
  read_chunk 0 4 "start" (File [x01; x02] 0)
  = (Ok [x01; x02], File [x01; x02] 2).
Proof. split; [simpl; lia | reflexivity]. Qed.

(** ** The big-endian scenario *)

(** C8: on a fresh file, after [write('uint', 0x01020304, 0)], the chunk at
    0 of size 4 is [01 02 03 04] and [read('uint', 0)] gives 0x01020304. *)
Theorem uint_big_endian :
  exists f1,
    write "uint" (PyInt 0x01020304) 0 0 "start" fresh = (Ok 4, f1) /\
    fst (read_chunk 0 4 "start" f1) = Ok [x01; x02; x03; x04] /\
    fst (read "uint" 0 0 "start" f1) = Ok (PyInt 0x01020304).
Proof.
  eexists. split; [vm_compute; reflexivity|].
  split; vm_compute; reflexivity.
Qed.

(** ** Classification of descriptors *)

Lemma is_primitive_true (type : string) :
  is_primitive type = true <->
  type = "uchar" \/ type = "ushort" \/ type = "uint" \/ type = "char" \/
  type = "short" \/ type = "int" \/ type = "float" \/ type = "double" \/
  type = "string".
Proof.
  unfold is_primitive. rewrite bool_decide_eq_true.
  rewrite !elem_of_cons, elem_of_nil. tauto.
Qed.

Lemma substring_all (s : string) : substring 0 (String.length s) s = s.
Proof. induction s as [|c s IH]; simpl; [reflexivity | f_equal; exact IH]. Qed.

Lemma substring_split (s : string) (n : nat) :
  (n <= String.length s)%nat ->
  s = substring 0 n s +:+ substring n (String.length s - n) s.
Proof.
  revert n. induction s as [|c s IH]; intros n Hn.
  - destruct n; simpl in *; [reflexivity | lia].
  - destruct n as [|n].
    + rewrite Nat.sub_0_r, substring_all. reflexivity.
    + simpl in Hn.
      change (String c s
              = String c (substring 0 n s +:+ substring n (String.length s - n) s)).
      f_equal. apply IH. lia.
Qed.

Lemma endswith_inv (s suffix : string) :
  endswith s suffix = true -> exists prefix, s = prefix +:+ suffix.
Proof.
  unfold endswith. intros H. apply andb_prop in H as [Hlen Heq].
  apply Nat.leb_le in Hlen. apply String.eqb_eq in Heq.
  remember (String.length suffix) as k eqn:Hk. clear Hk.
  exists (substring 0 (String.length s - k) s). subst suffix.
  pose proof (substring_split s (String.length s - k)) as H.
  replace (String.length s - (String.length s - k))%nat with k in H by lia.
  apply H. lia.
Qed.

Lemma last_char_app (prefix suffix : string) :
  suffix <> EmptyString ->
  last_char (prefix +:+ suffix) = last_char suffix.
Proof.
  intros Hne. induction prefix as [|c prefix IH]; [reflexivity|].
  change (String c prefix +:+ suffix) with (String c (prefix +:+ suffix)).
  rewrite <- IH.
  destruct (prefix +:+ suffix) as [|d t] eqn:E; [|reflexivity].
  destruct prefix; [|discriminate E].
  change (suffix = EmptyString) in E. contradiction.
Qed.

Lemma endswith_last_char (s suffix : string) :
  suffix <> EmptyString ->
  endswith s suffix = true -> last_char s = last_char suffix.
Proof.
  intros Hne H. apply endswith_inv in H as [prefix ->].
  apply last_char_app, Hne.
Qed.

Lemma array_not_pointer (type : string) :
  is_array type = true -> is_pointer type = true -> False.
Proof.
  unfold is_array, is_pointer. intros Ha Hp.
  apply endswith_last_char in Ha; [|discriminate].
  apply endswith_last_char in Hp; [|discriminate].
  rewrite Ha in Hp. discriminate.
Qed.

Lemma primitive_not_marked (type : string) :
  is_primitive type = true -> is_array type = false /\ is_pointer type = false.
Proof.
  rewrite is_primitive_true.
  intros H; repeat destruct H as [->|H]; try subst type; split; reflexivity.
Qed.

(** C3 (as amended): no descriptor has two of the three classifications;
    exactly one holds of the primitive names and of the names that end in
    an array or a pointer marker, and none of any other string. *)
Theorem classifications_at_most_one (type : string) :
  (classifications type <= 1)%nat /\
  (classifications type = 1%nat <->
   is_primitive type || is_array type || is_pointer type = true).
Proof.
  unfold classifications.
  destruct (is_primitive type) eqn:Hp.
  - destruct (primitive_not_marked type Hp) as [-> ->]. simpl. split; [lia | tauto].
  - destruct (is_array type) eqn:Ha.
    + destruct (is_pointer type) eqn:Hq.
      * destruct (array_not_pointer type Ha Hq).
      * simpl. split; [lia | tauto].
    + destruct (is_pointer type); simpl; split; try lia;
        split; (discriminate || reflexivity).
Qed.

(** C3 as stated fails: ['foo'] is not atomic, not an array and not a
    pointer. *)
Lemma classifications_none :
  is_primitive "foo" = false /\ is_array "foo" = false /\
  is_pointer "foo" = false /\ classifications "foo" <> 1%nat.
Proof. repeat split; try reflexivity. vm_compute. discriminate. Qed.

Lemma is_primitive_false (type : string) :
  is_primitive type = false <->
  type <> "uchar" /\ type <> "ushort" /\ type <> "uint" /\ type <> "char" /\
  type <> "short" /\ type <> "int" /\ type <> "float" /\ type <> "double" /\
  type <> "string".
Proof.
  rewrite <- not_true_iff_false, is_primitive_true. tauto.
Qed.

(** ** The width table *)

(** C4 (as amended): [primitive_size] never raises; it gives the byte width
    of the eight fixed-width names, which is 1 for ['char'], and 0 for
    ['string'] and for every descriptor that is not primitive, array- and
    pointer-marked ones among them. *)
Theorem primitive_size_table :
  primitive_size "uchar" = Ok 1 /\ primitive_size "ushort" = Ok 2 /\
  primitive_size "uint" = Ok 4 /\ primitive_size "char" = Ok 1 /\
  primitive_size "short" = Ok 2 /\ primitive_size "int" = Ok 4 /\
  primitive_size "float" = Ok 4 /\ primitive_size "double" = Ok 8 /\
  primitive_size "string" = Ok 0 /\ primitive_size "cstring" = Ok 0 /\
  (forall type, is_primitive type = false -> primitive_size type = Ok 0) /\
  (forall type, is_array type = true \/ is_pointer type = true ->
                primitive_size type = Ok 0) /\
  (forall type, exists n, primitive_size type = Ok n /\ 0 <= n).
Proof.
  assert (Hnp : forall type, is_primitive type = false ->
                             primitive_size type = Ok 0).
  { intros type H. unfold primitive_size. rewrite H.
    destruct (decide (type = "string")); reflexivity. }
  repeat split; try (vm_compute; reflexivity).
  - exact Hnp.
  - intros type H. apply Hnp.
    destruct (is_primitive type) eqn:Hp; [|reflexivity].
    destruct (primitive_not_marked type Hp) as [Ha Hq].
    destruct H as [H|H]; congruence.
  - intros type. destruct (is_primitive type) eqn:Hp.
    + apply is_primitive_true in Hp.
      repeat destruct Hp as [->|Hp]; try subst type;
        eexists; (split; [vm_compute; reflexivity | lia]).
    + exists 0. split; [apply Hnp, Hp | lia].
Qed.

Lemma primitive_size_table_witness :
  primitive_size "uint[]" = Ok 0 /\ primitive_size "foo" = Ok 0.
Proof.
  destruct primitive_size_table
    as (_ & _ & _ & _ & _ & _ & _ & _ & _ & _ & Hnp & Hmark & _).
  split.
  - apply Hmark. left. reflexivity.
  - apply Hnp. reflexivity.
Defined.

(** C4 as stated fails: the width of ['char'] (the spec's int8) is 1,
    not 4. *)
Lemma primitive_size_char :
  primitive_size "char" = Ok 1 /\ primitive_size "char" <> Ok 4.
Proof. split; [vm_compute; reflexivity | vm_compute; discriminate]. Qed.

(** ** Unrecognized descriptors *)

Lemma unpack_raises (fmt : string) (buffer : list byte) (e : exn) :
  Struct.unpack fmt buffer = Raise e -> e = StructError.
Proof.
  unfold Struct.unpack. destruct (Struct.parse fmt) as [c|]; [|congruence].
  destruct (negb _); [congruence|].
  destruct c; simpl; try discriminate;
    match goal with |- context [if ?b then _ else _] => destruct b end;
    discriminate.
Qed.

Lemma unpack_from_file_raises (fmt : string) (size : Z) (f f' : file) (e : exn) :
  0 <= size ->
  unpack_from_file fmt size f = (Raise e, f') ->
  e = StructError \/ e = IndexError.
Proof.
  intros Hs. unfold unpack_from_file, mbind, M_bind, lift.
  rewrite file_read_nonneg by exact Hs.
  destruct (Struct.unpack fmt _) as [items|e'] eqn:E.
  - destruct items; simpl; intros [= <-]; auto.
  - apply unpack_raises in E. intros [= <-]. auto.
Qed.

Lemma _read_string_while_raises (rest : list byte) (s : pystr) (b : byte)
    (p p' : nat) (e : exn) :
  _read_string_while rest s b p = (Raise e, p') -> e = IndexError.
Proof.
  revert s b p. induction rest as [|b' rest IH]; intros s b p; simpl.
  - destruct (decide (Z_of_byte b = 0)); congruence.
  - destruct (decide (Z_of_byte b = 0)); [congruence | apply IH].
Qed.

Lemma _read_string_raises (f f' : file) (e : exn) :
  _read_string f = (Raise e, f') -> e = IndexError.
Proof.
  unfold _read_string. destruct (drop (pos f) (content f)) as [|b rest].
  - congruence.
  - destruct (_read_string_while rest [] b (S (pos f))) as [[s|e'] p] eqn:E.
    + discriminate.
    + apply _read_string_while_raises in E. congruence.
Qed.

(** When the seek fails, [read] and [write] raise what it raised, whatever
    the descriptor, and the file is untouched. *)
Lemma read_seek_raises (type : string) (base offset : Z) (whence : string)
    (f f' : file) (e : exn) :
  seek (base + offset) whence f = (Raise e, f') ->
  read type base offset whence f = (Raise e, f) /\ f' = f.
Proof.
  intros Hseek. pose proof (seek_raise_inv _ _ _ _ _ Hseek) as ->.
  split; [|reflexivity]. unfold read. apply bind_raise, Hseek.
Qed.

Lemma write_seek_raises (type : string) (data : pyobj) (base offset : Z)
    (whence : string) (f f' : file) (e : exn) :
  seek (base + offset) whence f = (Raise e, f') ->
  write type data base offset whence f = (Raise e, f) /\ f' = f.
Proof.
  intros Hseek. pose proof (seek_raise_inv _ _ _ _ _ Hseek) as ->.
  split; [|reflexivity]. unfold write. apply bind_raise, Hseek.
Qed.

(** Dispatch of [read] and [write] on an unrecognized descriptor. *)
Lemma read_not_primitive (type : string) (base offset : Z) (whence : string)
    (f f' : file) :
  is_primitive type = false ->
  seek (base + offset) whence f = (Ok tt, f') ->
  read type base offset whence f
  = (Raise (ValueError ("Invalid value for arg `type`: " +:+ type)), f').
Proof.
  intros Hp Hseek. apply is_primitive_false in Hp.
  unfold read. rewrite (bind_ok _ _ _ _ _ Hseek).
  repeat (case_decide; [tauto|]). reflexivity.
Qed.

Lemma write_not_primitive (type : string) (data : pyobj) (base offset : Z)
    (whence : string) (f f' : file) :
  is_primitive type = false ->
  seek (base + offset) whence f = (Ok tt, f') ->
  write type data base offset whence f
  = (Raise (ValueError ("Invalid value for arg `type`: " +:+ type)), f').
Proof.
  intros Hp Hseek. apply is_primitive_false in Hp.
  unfold write. rewrite (bind_ok _ _ _ _ _ Hseek).
  repeat (case_decide; [tauto|]). reflexivity.
Qed.

Lemma read_primitive_no_ValueError (type : string) (base offset : Z)
    (whence : string) (f f' : file) (msg : string) :
  is_primitive type = true ->
  seek (base + offset) whence f = (Ok tt, f') ->
  fst (read type base offset whence f) <> Raise (ValueError msg).
Proof.
  intros Hp Hseek. apply is_primitive_true in Hp.
  unfold read, mbind, M_bind. rewrite Hseek.
  repeat destruct Hp as [->|Hp]; try subst type; simpl;
    match goal with
    | |- fst (unpack_from_file ?fmt ?n ?g) <> _ =>
      destruct (unpack_from_file fmt n g) as [[v|e] g'] eqn:E;
      [discriminate | apply unpack_from_file_raises in E; [|lia]];
      simpl; intros [= ->]; destruct E; discriminate
    | |- fst (_read_string ?g) <> _ =>
      destruct (_read_string g) as [[v|e] g'] eqn:E;
      [discriminate | apply _read_string_raises in E];
      simpl; intros [= ->]; discriminate
    end.
Qed.

Lemma whence_message_differs (whence type : string) :
  "Invalid value for `whence`: " +:+ whence
  <> "Invalid value for arg `type`: " +:+ type.
Proof. intros H. cbv in H. discriminate H. Qed.

(** C5: [read] raises the [ValueError] that names the descriptor exactly
    when the descriptor is not one of the nine primitive names and the seek
    accepts the position: [whence] is ['start'] or ['current'], and the
    target, [base + offset] counted from the start or from the cursor, is
    not before the start of the file.  At a position the seek refuses,
    [read] raises the error of the seek for every descriptor, primitive or
    not, and leaves the file untouched: [OSError] for a target before the
    start, a [ValueError] that names [whence] otherwise. *)
Theorem read_invalid_descriptor (type : string) (base offset : Z)
    (whence : string) (f : file) :
  let target :=
    (if decide (whence = "current") then Z.of_nat (pos f) else 0)
    + (base + offset) in
  let accepted := (whence = "start" \/ whence = "current") /\ 0 <= target in
  (fst (read type base offset whence f)
   = Raise (ValueError ("Invalid value for arg `type`: " +:+ type))
   <-> accepted /\ is_primitive type = false) /\
  ((exists msg, fst (read type base offset whence f) = Raise (ValueError msg))
   <-> (accepted /\ is_primitive type = false) \/
       (whence <> "start" /\ whence <> "current")) /\
  (~ accepted ->
   read type base offset whence f
   = (Raise (if decide (whence = "start" \/ whence = "current") then OSError
             else ValueError ("Invalid value for `whence`: " +:+ whence)),
      f)).
Proof.
  intros target accepted.
  destruct (seek_cases (base + offset) whence f)
    as [(Hw & Ht & Hseek)|[(Hw & Ht & Hseek)|(Hs & Hc & Hseek)]].
  - (* the seek accepts the position *)
    assert (Ha : accepted) by (split; assumption).
    assert (Hno : forall msg,
      fst (read type base offset whence f) = Raise (ValueError msg) ->
      is_primitive type = false).
    { intros msg H. destruct (is_primitive type) eqn:Hp; [|reflexivity].
      destruct (read_primitive_no_ValueError type base offset whence f _ msg
                  Hp Hseek H). }
    split; [|split].
    + split.
      * intros H. split; [exact Ha | exact (Hno _ H)].
      * intros [_ Hp]. rewrite (read_not_primitive _ _ _ _ _ _ Hp Hseek).
        reflexivity.
    + split.
      * intros [msg H]. left. split; [exact Ha | exact (Hno _ H)].
      * intros [[_ Hp]|[Hs Hc]]; [|destruct Hw; contradiction].
        eexists. rewrite (read_not_primitive _ _ _ _ _ _ Hp Hseek).
        reflexivity.
    + intros Hna. destruct (Hna Ha).
  - (* the target is before the start of the file *)
    destruct (read_seek_raises type _ _ _ _ _ _ Hseek) as [Hread _].
    assert (Hna : ~ accepted) by (intros [_ H]; unfold target in H; lia).
    split; [|split].
    + rewrite Hread. split; [discriminate | intros [Ha _]; destruct (Hna Ha)].
    + rewrite Hread. split.
      * intros [msg H]. discriminate H.
      * intros [[Ha _]|[Hs Hc]]; [destruct (Hna Ha) | destruct Hw; contradiction].
    + intros _. rewrite Hread.
      destruct (decide (whence = "start" \/ whence = "current")); [reflexivity | tauto].
  - (* [whence] is neither ['start'] nor ['current'] *)
    destruct (read_seek_raises type _ _ _ _ _ _ Hseek) as [Hread _].
    assert (Hna : ~ accepted) by (intros [[H|H] _]; contradiction).
    split; [|split].
    + rewrite Hread. split.
      * cbn [fst]. intros H. exfalso.
        apply (whence_message_differs whence type). congruence.
      * intros [Ha _]. destruct (Hna Ha).
    + rewrite Hread. split.
      * intros _. right. split; assumption.
      * intros _. eexists. reflexivity.
    + intros _. rewrite Hread.
      destruct (decide (whence = "start" \/ whence = "current")); [tauto | reflexivity].
Qed.

Lemma read_invalid_descriptor_witness :
  fst (read "uint[]" 2 1 "start" fresh)
  = Raise (ValueError ("Invalid value for arg `type`: " +:+ "uint[]")).
Proof.
  apply (proj1 (read_invalid_descriptor "uint[]" 2 1 "start" fresh)).
  split; [split; [left; reflexivity | simpl; lia] | reflexivity].
Defined.

(** C5 as stated fails in both directions, because the seek comes first:
    the primitive ['uint'] with a [whence] other than ['start'] and
    ['current'] raises a [ValueError], and the unrecognized ['foo'] at a
    target before the start of the file raises [OSError], not
    [ValueError]. *)
Lemma read_raises_what_seek_raises :
  is_primitive "uint" = true /\
  read "uint" 0 0 "end" (File [x00; x00; x00; x01] 0)
  = (Raise (ValueError "Invalid value for `whence`: end"),
     File [x00; x00; x00; x01] 0) /\
  is_primitive "foo" = false /\
  read "foo" 0 (-1) "start" (File [x00; x00; x00; x01] 0)
  = (Raise OSError, File [x00; x00; x00; x01] 0).
Proof. repeat split. Qed.

(** C10: when the descriptor is unrecognized, [read] and [write] raise after
    the seek: the file they leave is the file the seek left, with the cursor
    at [base + offset] from the start, or from the old cursor when [whence]
    is ['current']. *)
Theorem invalid_descriptor_after_seek (type : string) (data : pyobj)
    (base offset : Z) (whence : string) (f f' : file) :
  is_primitive type = false ->
  seek (base + offset) whence f = (Ok tt, f') ->
  read type base offset whence f
  = (Raise (ValueError ("Invalid value for arg `type`: " +:+ type)), f') /\
  write type data base offset whence f
  = (Raise (ValueError ("Invalid value for arg `type`: " +:+ type)), f') /\
  content f' = content f /\
  Z.of_nat (pos f')
  = (if decide (whence = "current") then Z.of_nat (pos f) else 0) + (base + offset).
Proof.
  intros Hp Hseek.
  split; [exact (read_not_primitive _ _ _ _ _ _ Hp Hseek)|].
  split; [exact (write_not_primitive _ _ _ _ _ _ _ Hp Hseek)|].
  destruct (seek_ok_inv _ _ _ _ Hseek) as [Hc [(-> & _ & Hpos)|(-> & _ & Hpos)]];
    (split; [exact Hc|]); simpl; lia.
Qed.

Lemma invalid_descriptor_after_seek_witness :
  read "int*" 4 3 "current" (File [x01] 1)
  = (Raise (ValueError ("Invalid value for arg `type`: " +:+ "int*")),
     File [x01] 8) /\
  write "int*" (PyInt 7) 4 3 "current" (File [x01] 1)
  = (Raise (ValueError ("Invalid value for arg `type`: " +:+ "int*")),
     File [x01] 8) /\
  content (File [x01] 8) = content (File [x01] 1) /\
  Z.of_nat (pos (File [x01] 8))
  = (if decide ("current" = "current") then Z.of_nat (pos (File [x01] 1)) else 0)
    + (4 + 3).
Proof.
  apply (invalid_descriptor_after_seek "int*" (PyInt 7) 4 3 "current"
           (File [x01] 1) (File [x01] 8)); reflexivity.
Defined.

(** ** Dispatch on the fixed-width descriptors *)

Lemma fixed_format_parse (type fmt : string) (c : Struct.format) :
  fixed_format type fmt c -> Struct.parse fmt = Some c.
Proof. destruct 1; reflexivity. Qed.

Lemma write_fixed (type fmt : string) (c : Struct.format) (data : pyobj)
    (base offset : Z) (whence : string) (f : file) :
  fixed_format type fmt c ->
  write type data base offset whence f
  = (_ ← seek (base + offset) whence; pack_to_file fmt data) f.
Proof. destruct 1; reflexivity. Qed.

Lemma read_fixed (type fmt : string) (c : Struct.format)
    (base offset : Z) (whence : string) (f : file) :
  fixed_format type fmt c ->
  read type base offset whence f
  = (_ ← seek (base + offset) whence;
     unpack_from_file fmt (Z.of_nat (Struct.calcsize c))) f.
Proof. destruct 1; reflexivity. Qed.

Lemma int_range_format (type : string) (lo hi : Z) :
  int_range type = Some (lo, hi) ->
  exists fmt c,
    fixed_format type fmt c /\ Struct.is_integer c = true /\
    Struct.min_int c = lo /\ Struct.max_int c = hi.
Proof.
  unfold int_range. repeat case_decide; try discriminate; subst type;
    intros [= <- <-]; do 2 eexists;
    (split; [constructor | repeat split]).
Qed.

(** ** Packing integers *)

Lemma pack_int_out_of_range (fmt : string) (c : Struct.format) (z : Z) :
  Struct.parse fmt = Some c -> Struct.is_integer c = true ->
  z < Struct.min_int c \/ Struct.max_int c < z ->
  Struct.pack fmt (PyInt z) = Raise StructError.
Proof.
  intros Hp Hi Hz. unfold Struct.pack. rewrite Hp.
  assert (Hb : (Struct.min_int c <=? z) && (z <=? Struct.max_int c) = false).
  { apply andb_false_iff. rewrite !Z.leb_gt. lia. }
  destruct c; try discriminate Hi; rewrite Hb; reflexivity.
Qed.

Lemma pack_int_in_range (fmt : string) (c : Struct.format) (z : Z) :
  Struct.parse fmt = Some c -> Struct.is_integer c = true ->
  Struct.min_int c <= z <= Struct.max_int c ->
  Struct.pack fmt (PyInt z)
  = Ok (be_bytes (Struct.calcsize c)
          (z mod 2 ^ (8 * Z.of_nat (Struct.calcsize c)))).
Proof.
  intros Hp Hi Hz. unfold Struct.pack. rewrite Hp.
  assert (Hb : (Struct.min_int c <=? z) && (z <=? Struct.max_int c) = true).
  { apply andb_true_iff. rewrite !Z.leb_le. lia. }
  destruct c; try discriminate Hi; rewrite Hb; reflexivity.
Qed.

Lemma pow_256 (n : nat) : 256 ^ Z.of_nat n = 2 ^ (8 * Z.of_nat n).
Proof. rewrite Z.pow_mul_r by lia. reflexivity. Qed.

Lemma unpack_pack_int (fmt : string) (c : Struct.format) (z : Z) :
  Struct.parse fmt = Some c -> Struct.is_integer c = true ->
  Struct.min_int c <= z <= Struct.max_int c ->
  Struct.unpack fmt
    (be_bytes (Struct.calcsize c) (z mod 2 ^ (8 * Z.of_nat (Struct.calcsize c))))
  = Ok [PyInt z].
Proof.
  intros Hp Hi Hz. unfold Struct.unpack. rewrite Hp.
  rewrite length_be_bytes, Nat.eqb_refl. cbn [negb].
  rewrite be_value_be_bytes, pow_256, Z.mod_mod by lia.
  destruct c; try discriminate Hi;
    unfold Struct.min_int, Struct.max_int in Hz;
    cbn [Struct.is_signed Struct.calcsize andb] in *;
    repeat match goal with
    | H : context [2 ^ ?k] |- _ =>
      let v := eval vm_compute in (2 ^ k) in change (2 ^ k) with v in H
    | |- context [2 ^ ?k] =>
      let v := eval vm_compute in (2 ^ k) in change (2 ^ k) with v
    end;
    try (rewrite Z.mod_small by lia; reflexivity);
    match goal with
    | |- context [?m <=? z mod ?M] =>
      destruct (Z.leb_spec m (z mod M)) as [Hle|Hlt];
      do 2 f_equal; f_equal;
      pose proof (Z.mod_pos_bound z M ltac:(lia));
      pose proof (Z.div_mod z M ltac:(lia));
      assert (z / M = 0 \/ z / M = -1) as [Hq|Hq] by nia;
      rewrite Hq in *; lia
    end.
Qed.

(** ** Encoding errors *)

Lemma encode_ascii_non_ascii (s : pystr) :
  Exists (fun c => (128 <= c)%N) s -> encode_ascii s = Raise UnicodeEncodeError.
Proof.
  induction 1 as [c s Hc | c s _ IH]; simpl.
  - destruct (N.ltb_spec c 128); [lia | reflexivity].
  - rewrite IH. destruct (c <? 128)%N; reflexivity.
Qed.

Lemma encode_ascii_ok (s : pystr) :
  Forall (fun c => (c < 128)%N) s ->
  encode_ascii s = Ok (map (fun c => byte_of_Z (Z.of_N c)) s).
Proof.
  induction 1 as [|c s Hc _ IH]; simpl; [reflexivity|].
  destruct (N.ltb_spec c 128); [|lia]. rewrite IH. reflexivity.
Qed.

(** C9: [write] raises (and returns nothing, leaving the content of the
    file as it was) when an integer lies outside the range of the integer
    descriptor, and when a string for ['string'] has a non-ASCII character;
    where the seek succeeds the error is [struct.error], respectively
    [UnicodeEncodeError]. *)
Theorem write_encoding_error (type : string) (data : pyobj) (base offset : Z)
    (whence : string) (f : file) :
  (exists lo hi z,
     int_range type = Some (lo, hi) /\ data = PyInt z /\ (z < lo \/ hi < z)) \/
  (exists s,
     type = "string" /\ data = PyStr s /\ Exists (fun c => (128 <= c)%N) s) ->
  exists e f',
    write type data base offset whence f = (Raise e, f') /\
    content f' = content f /\
    (is_ok (fst (seek (base + offset) whence f)) = true ->
     e = if decide (type = "string") then UnicodeEncodeError else StructError).
Proof.
  intros H.
  destruct (seek (base + offset) whence f) as [[[]|e0] f0] eqn:Hseek.
  - destruct (seek_ok_inv _ _ _ _ Hseek) as [Hc _].
    destruct H as [(lo & hi & z & Hr & -> & Hz)|(s & -> & -> & Hs)].
    + destruct (int_range_format _ _ _ Hr) as (fmt & c & Hf & Hi & <- & <-).
      exists StructError, f0.
      rewrite (write_fixed _ _ _ _ _ _ _ _ Hf).
      unfold mbind, M_bind, pack_to_file, lift. rewrite Hseek.
      rewrite (pack_int_out_of_range fmt c z (fixed_format_parse _ _ _ Hf) Hi Hz).
      split; [reflexivity|]. split; [exact Hc|]. intros _.
      destruct (decide (type = "string")) as [->|]; [inversion Hf | reflexivity].
    + exists UnicodeEncodeError, f0.
      unfold write, mbind, M_bind, lift. rewrite Hseek. simpl.
      rewrite (encode_ascii_non_ascii s Hs).
      split; [reflexivity|]. split; [exact Hc | reflexivity].
  - exists e0, f0.
    split; [unfold write; apply bind_raise, Hseek|].
    rewrite (seek_raise_inv _ _ _ _ _ Hseek).
    split; [reflexivity | discriminate].
Qed.

Lemma write_encoding_error_witness :
  exists e f',
    write "uchar" (PyInt 256) 0 0 "start" fresh = (Raise e, f') /\
    content f' = content fresh /\
    (is_ok (fst (seek (0 + 0) "start" fresh)) = true ->
     e = if decide ("uchar" = "string") then UnicodeEncodeError else StructError).
Proof.
  apply (write_encoding_error "uchar" (PyInt 256) 0 0 "start" fresh).
  left. exists 0, 255, 256.
  split; [reflexivity | split; [reflexivity | right; lia]].
Defined.

(** ** Null-terminated strings *)

Lemma chr_byte_of (c : codepoint) :
  (c < 128)%N -> chr (byte_of_Z (Z.of_N c)) = c.
Proof.
  intros Hc. unfold chr.
  pose proof (Z_of_byte_of_Z (Z.of_N c) ltac:(lia)) as H.
  unfold Z_of_byte in H. lia.
Qed.

Lemma _read_string_while_scan (bs tail rest : list byte) (acc : pystr)
    (b : byte) (p : nat) :
  Forall (fun b => Z_of_byte b <> 0) bs ->
  b :: rest = bs ++ x00 :: tail ->
  _read_string_while rest acc b p
  = (Ok (acc ++ map chr bs), (p + length bs)%nat).
Proof.
  intros Hnz. revert rest acc b p.
  induction Hnz as [|b0 bs Hb0 _ IH]; intros rest acc b p Heq.
  - injection Heq as -> ->. rewrite app_nil_r, Nat.add_0_r.
    destruct tail; simpl; reflexivity.
  - injection Heq as -> ->.
    destruct (bs ++ x00 :: tail) as [|b1 rest1] eqn:E.
    { destruct bs; discriminate E. }
    cbn [_read_string_while].
    destruct (decide (Z_of_byte b0 = 0)); [contradiction|].
    rewrite (IH rest1 (acc ++ [chr b0]) b1 (S p) eq_refl).
    rewrite <- app_assoc. cbn [map length app]. f_equal. lia.
Qed.

Lemma _read_string_at (c' bs tail : list byte) (p : nat) :
  Forall (fun b => Z_of_byte b <> 0) bs ->
  drop p c' = bs ++ x00 :: tail ->
  _read_string (File c' p)
  = (Ok (PyStr (map chr bs)), File c' (S p + length bs)).
Proof.
  intros Hnz Hd. unfold _read_string. cbn [pos content]. rewrite Hd.
  destruct (bs ++ x00 :: tail) as [|b rest] eqn:E.
  { destruct bs; discriminate E. }
  rewrite (_read_string_while_scan bs tail rest [] b (S p) Hnz (eq_sym E)).
  reflexivity.
Qed.

Lemma write_string (data : pyobj) (base offset : Z) (whence : string) (f : file) :
  write "string" data base offset whence f
  = (_ ← seek (base + offset) whence;
     buffer ← lift (bytes_ascii data);
     file_write (buffer ++ [x00])) f.
Proof. reflexivity. Qed.

Lemma read_string (base offset : Z) (whence : string) (f : file) :
  read "string" base offset whence f
  = (_ ← seek (base + offset) whence; _read_string) f.
Proof. reflexivity. Qed.

(** C6: for an ASCII string [s] without a zero character,
    [write('string', s, pos)] followed by [read('string', pos)] returns [s],
    and the byte at [pos + len(s)] is zero. *)
Theorem string_roundtrip (s : pystr) (base offset : Z) (f : file) :
  Forall (fun c => (0 < c < 128)%N) s ->
  0 <= base + offset ->
  exists f1 f2,
    write "string" (PyStr s) base offset "start" f
    = (Ok (Z.of_nat (length s) + 1), f1) /\
    read "string" base offset "start" f1 = (Ok (PyStr s), f2) /\
    content f1 !! (Z.to_nat (base + offset) + length s)%nat = Some x00.
Proof.
  intros Hs Hpos.
  set (p := Z.to_nat (base + offset)).
  set (bs := map (fun c => byte_of_Z (Z.of_N c)) s).
  assert (Henc : encode_ascii s = Ok bs).
  { apply encode_ascii_ok. eapply Forall_impl; [exact Hs|].
    intros c Hc. simpl in Hc. lia. }
  assert (Hnz : Forall (fun b => Z_of_byte b <> 0) bs).
  { subst bs. apply Forall_map. eapply Forall_impl; [exact Hs|].
    intros c Hc. simpl in *. rewrite Z_of_byte_of_Z; lia. }
  assert (Hchr : map chr bs = s).
  { subst bs. clear Henc Hnz. induction Hs as [|c s Hc _ IH]; [reflexivity|].
    cbn [map]. rewrite chr_byte_of by lia. f_equal. exact IH. }
  assert (Hlen : length bs = length s) by (subst bs; apply length_map).
  destruct (file_write_at (bs ++ [x00]) (content f) p) as (c' & Hw & Hdrop & _).
  { destruct bs; discriminate. }
  rewrite <- app_assoc in Hdrop. cbn [app] in Hdrop.
  exists (File c' (p + length (bs ++ [x00]))), (File c' (S p + length bs)).
  split; [|split].
  - rewrite write_string. unfold mbind, M_bind, lift.
    rewrite seek_start by exact Hpos.
    cbn [bytes_ascii]. rewrite Henc. fold p. rewrite Hw.
    rewrite length_app, Hlen. cbn [length]. do 2 f_equal. lia.
  - rewrite read_string. unfold mbind, M_bind.
    rewrite seek_start by exact Hpos.
    cbn [content]. fold p. rewrite (_read_string_at c' bs _ p Hnz Hdrop), Hchr.
    reflexivity.
  - cbn [content]. fold p. rewrite <- Hlen, <- lookup_drop, Hdrop.
    apply list_lookup_middle. reflexivity.
Qed.

Lemma string_roundtrip_witness :
  exists f1 f2,
    write "string" (PyStr [97; 98; 99]%N) 10 0 "start" fresh
    = (Ok (Z.of_nat (length [97; 98; 99]%N) + 1), f1) /\
    read "string" 10 0 "start" f1 = (Ok (PyStr [97; 98; 99]%N), f2) /\
    content f1 !! (Z.to_nat (10 + 0) + length [97; 98; 99]%N)%nat = Some x00.
Proof.
  apply (string_roundtrip [97; 98; 99]%N 10 0 fresh); [|lia].
  repeat constructor.
Defined.

(** ** IEEE 754 bit patterns *)

Lemma digits2_pos_bounds (m : positive) :
  2 ^ (Z.pos (digits2_pos m) - 1) <= Z.pos m < 2 ^ Z.pos (digits2_pos m).
Proof.
  induction m as [m IH|m IH|]; cbn [digits2_pos].
  - rewrite Pos2Z.inj_succ. change (Z.pos m~1) with (2 * Z.pos m + 1).
    replace (Z.succ (Z.pos (digits2_pos m)) - 1)
      with (Z.succ (Z.pos (digits2_pos m) - 1)) by lia.
    rewrite !Z.pow_succ_r by lia. lia.
  - rewrite Pos2Z.inj_succ. change (Z.pos m~0) with (2 * Z.pos m).
    replace (Z.succ (Z.pos (digits2_pos m)) - 1)
      with (Z.succ (Z.pos (digits2_pos m) - 1)) by lia.
    rewrite !Z.pow_succ_r by lia. lia.
  - simpl. lia.
Qed.

Section Bits.
Variables mw ew : Z.
Hypothesis Hmw : 0 < mw.
Hypothesis Hew : 1 < ew.

Local Abbreviation P := (2 ^ mw).
Local Abbreviation Q := (2 ^ ew).

Local Lemma P_pos : 0 < P.
Proof. apply Z.pow_pos_nonneg; lia. Qed.

Local Lemma Q_femax : Q = 2 * femax ew.
Proof.
  unfold femax. rewrite <- Z.pow_succ_r by lia. f_equal. lia.
Qed.

Local Lemma femax_pos : 2 <= femax ew.
Proof.
  unfold femax. change 2 with (2 ^ 1) at 1.
  apply Z.pow_le_mono_r; lia.
Qed.

Local Lemma pow_mw_ew : 2 ^ (mw + ew) = Q * P.
Proof. rewrite Z.pow_add_r by lia. lia. Qed.

Local Lemma pow_prec : 2 ^ fprec mw = 2 * P.
Proof.
  unfold fprec. rewrite Z.pow_add_r by lia. change (2 ^ 1) with 2. lia.
Qed.

(** The three fields of a bit pattern built from a sign, a biased
    exponent and a trailing significand. *)
Lemma fields_of_bits (s : bool) (E F : Z) :
  0 <= E < 2 ^ ew -> 0 <= F < 2 ^ mw ->
  let x := sign_bit mw ew s + E * 2 ^ mw + F in
  (2 ^ (mw + ew) <=? x) = s /\
  (x / 2 ^ mw) mod 2 ^ ew = E /\
  x mod 2 ^ mw = F /\
  0 <= x < 2 ^ (mw + ew + 1).
Proof.
  intros HE HF x. subst x. unfold sign_bit.
  rewrite (Z.pow_add_r 2 (mw + ew) 1) by lia. change (2 ^ 1) with 2.
  rewrite pow_mw_ew.
  pose proof P_pos as HP.
  set (sg := if s then 1 else 0).
  replace ((if s then Q * P else 0) + E * P + F)
    with ((sg * Q + E) * P + F) by (subst sg; destruct s; lia).
  assert (Hsg : 0 <= sg <= 1) by (subst sg; destruct s; lia).
  assert (Hdiv : ((sg * Q + E) * P + F) / P = sg * Q + E).
  { rewrite Z.div_add_l by lia. rewrite Z.div_small by lia. lia. }
  repeat split.
  - subst sg. destruct s.
    + apply Z.leb_le. nia.
    + apply Z.leb_gt. nia.
  - rewrite Hdiv. rewrite Z.add_comm, Z_mod_plus_full. apply Z.mod_small, HE.
  - rewrite Z.add_comm, Z_mod_plus_full. apply Z.mod_small, HF.
  - nia.
  - nia.
Qed.

(** What being a float of the format says of a finite number. *)
Lemma bounded_inv (m : positive) (e : Z) :
  bounded (fprec mw) (femax ew) m e = true ->
  femin mw ew <= e <= femax ew - fprec mw /\
  ((P <= Z.pos m < 2 * P) \/ (Z.pos m < P /\ e = femin mw ew)).
Proof.
  unfold bounded, canonical_mantissa, fexp. intros H.
  apply andb_prop in H as [Hc He].
  apply Z.eqb_eq in Hc. apply Z.leb_le in He.
  fold (femin mw ew) in Hc.
  pose proof (digits2_pos_bounds m) as [Hlo Hhi].
  set (d := Z.pos (digits2_pos m)) in *.
  assert (Hd : 0 < d) by (subst d; lia).
  split; [lia|].
  destruct (Z.lt_ge_cases (Z.pos m) P) as [Hlt|Hge].
  - right. split; [exact Hlt|].
    assert (d - 1 < mw).
    { apply (Z.pow_lt_mono_r_iff 2); [lia | lia | lia]. }
    unfold fprec in Hc. lia.
  - left. split; [exact Hge|].
    assert (mw < d).
    { apply (Z.pow_lt_mono_r_iff 2); [lia | lia | lia]. }
    assert (d = fprec mw) by (unfold fprec in *; lia).
    rewrite <- pow_prec. congruence.
Qed.

(** Decoding the bit pattern of a float of the format gives the float
    back, and the pattern fits the format's width. *)
Lemma bits_roundtrip (x : spec_float) :
  is_float mw ew x = true ->
  float_of_bits mw ew (bits_of_float mw ew x) = x /\
  0 <= bits_of_float mw ew x < 2 ^ (mw + ew + 1).
Proof.
  intros Hx. pose proof P_pos as HP.
  pose proof Q_femax as HQ. pose proof femax_pos as Hemax.
  destruct x as [s|s| |s m e]; unfold float_of_bits.
  - (* zero *)
    destruct (fields_of_bits s 0 0) as (Hs & HE & HF & Hr); [lia | lia |].
    cbn [bits_of_float].
    replace (sign_bit mw ew s) with (sign_bit mw ew s + 0 * 2 ^ mw + 0) by lia.
    split; [|exact Hr]. cbv zeta. rewrite Hs, HE, HF. reflexivity.
  - (* infinity *)
    destruct (fields_of_bits s (2 ^ ew - 1) 0) as (Hs & HE & HF & Hr);
      [lia | lia |].
    cbn [bits_of_float].
    replace (sign_bit mw ew s + (2 ^ ew - 1) * 2 ^ mw)
      with (sign_bit mw ew s + (2 ^ ew - 1) * 2 ^ mw + 0) by lia.
    split; [|exact Hr]. cbv zeta. rewrite Hs, HE, HF.
    destruct (Z.eqb_spec (2 ^ ew - 1) 0); [lia|].
    rewrite Z.eqb_refl. reflexivity.
  - (* NaN *)
    assert (HF0 : 0 < 2 ^ (mw - 1) < 2 ^ mw).
    { split; [apply Z.pow_pos_nonneg; lia|].
      apply Z.pow_lt_mono_r; lia. }
    destruct (fields_of_bits false (2 ^ ew - 1) (2 ^ (mw - 1)))
      as (Hs & HE & HF & Hr); [lia | lia |].
    cbn [bits_of_float]. cbn [sign_bit] in *.
    rewrite Z.add_0_l in *.
    split; [|exact Hr]. cbv zeta. rewrite HE, HF.
    destruct (Z.eqb_spec (2 ^ ew - 1) 0); [lia|].
    rewrite Z.eqb_refl.
    destruct (Z.eqb_spec (2 ^ (mw - 1)) 0); [lia | reflexivity].
  - (* finite *)
    destruct (bounded_inv m e Hx) as [He [[Hlo Hhi]|[Hlt ->]]];
      cbn [bits_of_float].
    + unfold femin, emin, fprec in He.
      destruct (Z.leb_spec P (Z.pos m)); [|lia].
      destruct (fields_of_bits s (e - femin mw ew + 1) (Z.pos m - P))
        as (Hs & HE & HF & Hr);
        [unfold femin, emin, fprec; lia | lia |].
      split; [|exact Hr]. cbv zeta. rewrite Hs, HE, HF.
      destruct (Z.eqb_spec (e - femin mw ew + 1) 0);
        [unfold femin, emin, fprec in *; lia|].
      destruct (Z.eqb_spec (e - femin mw ew + 1) (2 ^ ew - 1));
        [unfold femin, emin, fprec in *; lia|].
      replace (Z.pos m - P + P) with (Z.pos m) by lia.
      f_equal. lia.
    + destruct (Z.leb_spec P (Z.pos m)); [lia|].
      destruct (fields_of_bits s 0 (Z.pos m)) as (Hs & HE & HF & Hr);
        [lia | lia |].
      replace (sign_bit mw ew s + Z.pos m)
        with (sign_bit mw ew s + 0 * P + Z.pos m) by lia.
      split; [|exact Hr]. cbv zeta. rewrite Hs, HE, HF. reflexivity.
Qed.
End Bits.

(** ** Conversions between formats *)

(** The iterator of the rounding functions is [Pos.iter]. *)
Lemma iter_pos_iter {A : Type} (g : A -> A) (p : positive) (x : A) :
  SpecFloat.iter_pos g p x = Pos.iter g x p.
Proof.
  revert x. induction p as [p IH|p IH|]; intros x; cbn [SpecFloat.iter_pos Pos.iter].
  - rewrite !IH, <- !Pos.iter_swap. reflexivity.
  - rewrite !IH. reflexivity.
  - reflexivity.
Qed.

(** Shifting a mantissa left by [p] bits adds [p] digits, and shifting it
    back right is exact. *)
Lemma digits2_pos_shift (m p : positive) :
  digits2_pos (Pos.iter xO m p) = (digits2_pos m + p)%positive.
Proof.
  induction p as [|p IH] using Pos.peano_ind.
  - simpl. lia.
  - rewrite Pos.iter_succ. cbn [digits2_pos]. rewrite IH. lia.
Qed.

Lemma shr_shift (m p : positive) :
  SpecFloat.iter_pos shr_1 p
    (Build_shr_record (Z.pos (Pos.iter xO m p)) false false)
  = Build_shr_record (Z.pos m) false false.
Proof.
  rewrite iter_pos_iter.
  induction p as [|p IH] using Pos.peano_ind.
  - reflexivity.
  - rewrite Pos.iter_succ_r, Pos.iter_succ. cbn [shr_1 orb]. exact IH.
Qed.

Lemma shl_align_up (m : positive) (e k : Z) :
  0 <= k -> shl_align m (e - k) e = (m, e - k).
Proof.
  intros Hk. unfold shl_align.
  replace (e - (e - k)) with k by lia.
  destruct k; [reflexivity | reflexivity | lia].
Qed.

Section Rounding.
Variables prec emax : Z.

(** Rounding a number that, shifted right by [k] bits, is a float of the
    format gives that float. *)
Lemma binary_round_aux_shifted (s : bool) (m m' : positive) (e k : Z) :
  bounded prec emax m e = true ->
  (k = 0 /\ m' = m) \/ (exists p, k = Z.pos p /\ m' = Pos.iter xO m p) ->
  binary_round_aux prec emax s (Z.pos m') (e - k) loc_Exact
  = S754_finite s m e.
Proof.
  intros Hb Hk. unfold bounded, canonical_mantissa in Hb.
  apply andb_prop in Hb as [Hc He]. apply Z.eqb_eq in Hc.
  assert (Hstep1 :
    shr_fexp prec emax (Z.pos m') (e - k) loc_Exact
    = (Build_shr_record (Z.pos m) false false, e)).
  { unfold shr_fexp. cbn [Zdigits2 shr_record_of_loc].
    destruct Hk as [[-> ->]|(p & -> & ->)].
    - rewrite Z.sub_0_r, Hc, Z.sub_diag. reflexivity.
    - rewrite digits2_pos_shift, Pos2Z.inj_add.
      replace (Z.pos (digits2_pos m) + Z.pos p + (e - Z.pos p))
        with (Z.pos (digits2_pos m) + e) by lia.
      rewrite Hc.
      replace (e - (e - Z.pos p)) with (Z.pos p) by lia.
      cbn [shr]. rewrite shr_shift. f_equal. lia. }
  assert (Hstep2 :
    shr_fexp prec emax (Z.pos m) e loc_Exact
    = (Build_shr_record (Z.pos m) false false, e)).
  { unfold shr_fexp. cbn [Zdigits2 shr_record_of_loc].
    rewrite Hc, Z.sub_diag. reflexivity. }
  unfold binary_round_aux. rewrite Hstep1.
  cbn [shr_m loc_of_shr_record round_nearest_even].
  rewrite Hstep2. cbn [shr_m]. rewrite He. reflexivity.
Qed.

Lemma binary_round_aux_float (s : bool) (m : positive) (e : Z) :
  bounded prec emax m e = true ->
  binary_round_aux prec emax s (Z.pos m) e loc_Exact = S754_finite s m e.
Proof.
  intros Hb. rewrite <- (Z.sub_0_r e) at 1.
  apply binary_round_aux_shifted; [exact Hb | left; split; reflexivity].
Qed.

Lemma binary_normalize_sign (s : bool) (m : positive) (e : Z) :
  binary_normalize prec emax (cond_Zopp s (Z.pos m)) e s
  = binary_round prec emax s m e.
Proof. destruct s; reflexivity. Qed.
End Rounding.

(** A binary32 number converted to binary64 and back is itself, and the
    conversion to binary64 is a float of that format. *)
Section Widen.
Variables prec1 emax1 prec2 emax2 : Z.
Hypothesis Hprec : 0 < prec1 <= prec2.
Hypothesis Hemax : emax1 <= emax2.
Hypothesis Hemin : emin prec2 emax2 <= emin prec1 emax1 + 1 - prec2.

Local Abbreviation widen_shift := (widen_shift prec2).
Local Abbreviation widen_mantissa := (widen_mantissa prec2).

Lemma widen_facts (m : positive) (e : Z) :
  bounded prec1 emax1 m e = true ->
  let k := widen_shift m in
  0 <= k /\
  ((k = 0 /\ widen_mantissa m = m) \/
   (exists p, k = Z.pos p /\ widen_mantissa m = Pos.iter xO m p)) /\
  Z.pos (digits2_pos (widen_mantissa m)) = prec2 /\
  fexp prec1 emax1 (Z.pos (digits2_pos m) + e) = e /\
  fexp prec2 emax2 (Z.pos (digits2_pos m) + e) = e - k /\
  bounded prec2 emax2 (widen_mantissa m) (e - k) = true.
Proof.
  intros Hb k. pose proof Hb as Hb'.
  unfold bounded, canonical_mantissa in Hb.
  apply andb_prop in Hb as [Hc He].
  apply Z.eqb_eq in Hc. apply Z.leb_le in He.
  assert (Hd : 0 < Z.pos (digits2_pos m)) by lia.
  assert (Hk : 0 <= k /\ emin prec1 emax1 <= e).
  { subst k. unfold widen_shift. unfold fexp in Hc. lia. }
  destruct Hk as [Hk Hemin1].
  assert (Hcase : (k = 0 /\ widen_mantissa m = m) \/
    (exists p, k = Z.pos p /\ widen_mantissa m = Pos.iter xO m p)).
  { subst k. unfold widen_mantissa. destruct (widen_shift m) as [|p|p].
    - left. split; reflexivity.
    - right. exists p. split; reflexivity.
    - lia. }
  assert (Hdig : Z.pos (digits2_pos (widen_mantissa m)) = prec2).
  { destruct Hcase as [[Hk0 ->]|(p & Hkp & ->)].
    - subst k. unfold widen_shift in Hk0. lia.
    - rewrite digits2_pos_shift, Pos2Z.inj_add, <- Hkp.
      subst k. unfold widen_shift. lia. }
  assert (Hf2 : fexp prec2 emax2 (Z.pos (digits2_pos m) + e) = e - k).
  { subst k. unfold widen_shift, fexp in *. lia. }
  repeat split; try assumption.
  unfold bounded, canonical_mantissa. rewrite Hdig.
  apply andb_true_intro. split.
  - apply Z.eqb_eq. subst k. unfold widen_shift, fexp in *. lia.
  - apply Z.leb_le. subst k. unfold widen_shift, fexp, emin in *. lia.
Qed.

Lemma binary_round_widen (s : bool) (m : positive) (e : Z) :
  bounded prec1 emax1 m e = true ->
  binary_round prec2 emax2 s m e
  = S754_finite s (widen_mantissa m) (e - widen_shift m).
Proof.
  intros Hb.
  destruct (widen_facts m e Hb) as (Hk & Hcase & Hdig & Hf1 & Hf2 & Hb2).
  unfold binary_round. rewrite Hf2. unfold shl_align.
  replace (e - widen_shift m - e) with (- widen_shift m) by lia.
  destruct Hcase as [[Hk0 Hm]|(p & Hkp & Hm)].
  - rewrite Hk0 in *. rewrite Hm in *.
    change (binary_round_aux prec2 emax2 s (Z.pos m) e loc_Exact
            = S754_finite s m (e - 0)).
    rewrite Z.sub_0_r in *.
    apply binary_round_aux_float. exact Hb2.
  - rewrite Hkp in *.
    change (binary_round_aux prec2 emax2 s (Z.pos (Pos.iter xO m p))
              (e - Z.pos p) loc_Exact
            = S754_finite s (widen_mantissa m) (e - Z.pos p)).
    rewrite <- Hm. apply binary_round_aux_float. exact Hb2.
Qed.

Lemma binary_round_narrow (s : bool) (m : positive) (e : Z) :
  bounded prec1 emax1 m e = true ->
  binary_round prec1 emax1 s (widen_mantissa m) (e - widen_shift m)
  = S754_finite s m e.
Proof.
  intros Hb.
  destruct (widen_facts m e Hb) as (Hk & Hcase & Hdig & Hf1 & Hf2 & Hb2).
  unfold binary_round. rewrite Hdig.
  replace (prec2 + (e - widen_shift m)) with (Z.pos (digits2_pos m) + e)
    by (unfold widen_shift; lia).
  rewrite Hf1, shl_align_up by exact Hk.
  apply binary_round_aux_shifted; assumption.
Qed.
End Widen.

(** A binary32 number survives the conversion to a Python float and
    back. *)
Lemma convert_widen_narrow (y : spec_float) :
  is_float 23 8 y = true -> convert 23 8 (convert 52 11 y) = y.
Proof.
  destruct y as [s|s| |s m e]; try reflexivity.
  unfold is_float, valid_binary, convert.
  change (fprec 23) with 24. change (femax 8) with 128.
  change (fprec 52) with 53. change (femax 11) with 1024.
  intros Hb. rewrite binary_normalize_sign.
  assert (H1 : 0 < 24 <= 53) by lia.
  assert (H2 : 128 <= 1024) by lia.
  assert (H3 : emin 53 1024 <= emin 24 128 + 1 - 53) by (unfold emin; lia).
  rewrite (binary_round_widen 24 128 53 1024 H1 H2 H3 s m e Hb).
  rewrite binary_normalize_sign.
  exact (binary_round_narrow 24 128 53 1024 H1 H2 H3 s m e Hb).
Qed.

(** The Python float that a binary32 number converts to is a binary64
    number. *)
Lemma convert_widen_valid (y : spec_float) :
  is_float 23 8 y = true -> is_float 52 11 (convert 52 11 y) = true.
Proof.
  destruct y as [s|s| |s m e]; try reflexivity.
  unfold is_float, valid_binary, convert.
  change (fprec 23) with 24. change (femax 8) with 128.
  change (fprec 52) with 53. change (femax 11) with 1024.
  intros Hb. rewrite binary_normalize_sign.
  assert (H1 : 0 < 24 <= 53) by lia.
  assert (H2 : 128 <= 1024) by lia.
  assert (H3 : emin 53 1024 <= emin 24 128 + 1 - 53) by (unfold emin; lia).
  rewrite (binary_round_widen 24 128 53 1024 H1 H2 H3 s m e Hb).
  apply (widen_facts 24 128 53 1024 H1 H2 H3 m e Hb).
Qed.

(** ** Round trip of the fixed-width descriptors *)

Lemma fixed_format_fun (type fmt1 fmt2 : string) (c1 c2 : Struct.format) :
  fixed_format type fmt1 c1 -> fixed_format type fmt2 c2 ->
  fmt1 = fmt2 /\ c1 = c2.
Proof. destruct 1; inversion 1; split; reflexivity. Qed.

Lemma representable_format (type : string) (v : pyobj) :
  representable type v -> exists fmt c, fixed_format type fmt c.
Proof.
  destruct 1 as [type lo hi z Hr _| |].
  - destruct (int_range_format _ _ _ Hr) as (fmt & c & Hf & _). eauto.
  - do 2 eexists; constructor.
  - do 2 eexists; constructor.
Qed.

Lemma unpack_pack (type fmt : string) (c : Struct.format) (v : pyobj) :
  fixed_format type fmt c -> representable type v ->
  exists bs,
    Struct.pack fmt v = Ok bs /\ length bs = Struct.calcsize c /\
    Struct.unpack fmt bs = Ok [v].
Proof.
  intros Hf Hv. destruct Hv as [type lo hi z Hr Hz|y Hy Hnan|x Hx Hnan].
  - destruct (int_range_format _ _ _ Hr) as (fmt' & c' & Hf' & Hi & <- & <-).
    destruct (fixed_format_fun _ _ _ _ _ Hf Hf') as [<- <-].
    pose proof (fixed_format_parse _ _ _ Hf) as Hp.
    eexists. split; [apply (pack_int_in_range fmt c z Hp Hi Hz)|].
    split; [apply length_be_bytes|].
    apply (unpack_pack_int fmt c z Hp Hi Hz).
  - inversion Hf; subst.
    destruct (bits_roundtrip 23 8 ltac:(lia) ltac:(lia) y Hy) as [Hbits Hrange].
    exists (be_bytes 4 (bits_of_float 23 8 y)).
    split; [|split; [reflexivity|]].
    + unfold Struct.pack. simpl Struct.parse.
      cbn [Struct.as_double]. rewrite (convert_widen_narrow y Hy).
      destruct y; try discriminate Hnan; reflexivity.
    + unfold Struct.unpack. simpl Struct.parse.
      rewrite length_be_bytes. cbn [Struct.calcsize Nat.eqb negb].
      rewrite be_value_be_bytes_small by exact Hrange.
      rewrite Hbits. reflexivity.
  - inversion Hf; subst.
    destruct (bits_roundtrip 52 11 ltac:(lia) ltac:(lia) x Hx) as [Hbits Hrange].
    exists (be_bytes 8 (bits_of_float 52 11 x)).
    split; [reflexivity|]. split; [reflexivity|].
    unfold Struct.unpack. simpl Struct.parse.
    rewrite length_be_bytes. cbn [Struct.calcsize Nat.eqb negb].
    rewrite be_value_be_bytes_small by exact Hrange.
    rewrite Hbits. reflexivity.
Qed.

Lemma calcsize_pos (c : Struct.format) : (0 < Struct.calcsize c)%nat.
Proof. destruct c; simpl; lia. Qed.

(** The width table agrees with the sizes of the formats. *)
Lemma primitive_size_calcsize (type fmt : string) (c : Struct.format) :
  fixed_format type fmt c ->
  primitive_size type = Ok (Z.of_nat (Struct.calcsize c)).
Proof. destruct 1; vm_compute; reflexivity. Qed.

(** C1 (as amended): for each fixed-width descriptor and each value it
    represents exactly, [write(type, v, pos)] followed by [read(type, pos)]
    on the same file returns [v]; the write returns the width of the
    descriptor. *)
Theorem write_read_roundtrip (type : string) (v : pyobj) (base offset : Z)
    (f : file) :
  representable type v ->
  0 <= base + offset ->
  exists n f1 f2,
    write type v base offset "start" f = (Ok n, f1) /\
    read type base offset "start" f1 = (Ok v, f2) /\
    primitive_size type = Ok n.
Proof.
  intros Hv Hpos.
  destruct (representable_format type v Hv) as (fmt & c & Hf).
  destruct (unpack_pack type fmt c v Hf Hv) as (bs & Hpack & Hlen & Hunpack).
  set (p := Z.to_nat (base + offset)).
  destruct (file_write_at bs (content f) p) as (c' & Hw & Hdrop & _).
  { pose proof (calcsize_pos c). destruct bs; [simpl in Hlen; lia | discriminate]. }
  exists (Z.of_nat (length bs)), (File c' (p + length bs)),
         (File c' (p + length bs)).
  split; [|split].
  - rewrite (write_fixed _ _ _ _ _ _ _ _ Hf).
    unfold mbind, M_bind, pack_to_file, lift.
    rewrite seek_start by exact Hpos. rewrite Hpack. fold p. exact Hw.
  - rewrite (read_fixed _ _ _ _ _ _ _ Hf).
    unfold unpack_from_file, lift, mbind, M_bind.
    rewrite seek_start by exact Hpos. cbn [content]. fold p.
    rewrite <- Hlen, (read_back bs c' _ p Hdrop), Hunpack. reflexivity.
  - rewrite Hlen. exact (primitive_size_calcsize _ _ _ Hf).
Qed.

Lemma write_read_roundtrip_witness :
  (exists n f1 f2,
     write "short" (PyInt (-2)) 3 0 "start" fresh = (Ok n, f1) /\
     read "short" 3 0 "start" f1 = (Ok (PyInt (-2)), f2) /\
     primitive_size "short" = Ok n) /\
  (exists n f1 f2,
     write "float" (PyFloat (convert 52 11 three_halves)) 0 0 "start" fresh
     = (Ok n, f1) /\
     read "float" 0 0 "start" f1
     = (Ok (PyFloat (convert 52 11 three_halves)), f2) /\
     primitive_size "float" = Ok n).
Proof.
  split.
  - apply (write_read_roundtrip "short" (PyInt (-2)) 3 0 fresh); [|lia].
    apply (rep_int "short" (-32768) 32767 (-2)); [reflexivity | lia].
  - apply (write_read_roundtrip "float" (PyFloat (convert 52 11 three_halves))
             0 0 fresh); [|lia].
    apply (rep_float three_halves); reflexivity.
Defined.

(** C1 as stated fails: the Python float 0.1 lies within the range of
    binary32, and what is read back after writing it as ['float'] is
    another number. *)
Lemma float_roundtrip_inexact :
  is_float 52 11 tenth = true /\
  SFltb flt_min tenth = true /\ SFltb tenth flt_max = true /\
  write "float" (PyFloat tenth) 0 0 "start" fresh
  = (Ok 4, File [x3d; xcc; xcc; xcd] 4) /\
  read "float" 0 0 "start" (File [x3d; xcc; xcc; xcd] 4)
  = (Ok (PyFloat (S754_finite false 7205759511166976 (-56))),
     File [x3d; xcc; xcc; xcd] 4) /\
  SFeqb (S754_finite false 7205759511166976 (-56)) tenth = false.
Proof. repeat split; vm_compute; reflexivity. Qed.

(** * Further properties of the accessor *)

(** ** What a write changes *)

(** The file after [file.write(data)], byte by byte: what was before the
    cursor stays (a gap past the old end reads as zeros), the data follow,
    and what was after the written range stays. *)
Lemma file_write_lookup (data c : list byte) (p : nat) :
  data <> [] ->
  exists c',
    file_write data (File c p)
    = (Ok (Z.of_nat (length data)), File c' (p + length data)) /\
    length c' = (length c `max` (p + length data))%nat /\
    forall i : nat,
      c' !! i
      = if decide (i < p)%nat
        then (if decide (i < length c)%nat then c !! i else Some x00)
        else if decide (i < p + length data)%nat then data !! (i - p)%nat
        else c !! i.
Proof.
  intros Hne. unfold file_write. cbn [content pos].
  destruct data as [|b data]; [congruence|].
  set (d := b :: data) in *.
  eexists. split; [reflexivity|].
  assert (Hlen : length (take p (c ++ replicate (p - length c) x00)) = p).
  { rewrite length_take, length_app, length_replicate. lia. }
  split.
  - rewrite !length_app, Hlen, length_drop. lia.
  - intros i. destruct (decide (i < p)%nat) as [Hi|Hi].
    + rewrite lookup_app_l by lia. rewrite lookup_take_lt by lia.
      destruct (decide (i < length c)%nat) as [Hc|Hc].
      * apply lookup_app_l. lia.
      * rewrite lookup_app_r by lia. apply lookup_replicate_2. lia.
    + rewrite lookup_app_r by lia. rewrite Hlen.
      destruct (decide (i < p + length d)%nat) as [Hd|Hd].
      * apply lookup_app_l. lia.
      * rewrite lookup_app_r by lia. rewrite lookup_drop. f_equal. lia.
Qed.

(** Parts of the file that a write at [p] of [n] bytes leaves alone. *)
Lemma slice_eq_lookup (c c' : list byte) (p n : nat) :
  (forall i : nat, (p <= i < p + n)%nat -> c' !! i = c !! i) ->
  take n (drop p c') = take n (drop p c).
Proof.
  intros H. apply list_eq. intros i.
  rewrite !lookup_take, !lookup_drop.
  destruct (decide (i < n)%nat); [apply H; lia | reflexivity].
Qed.

Lemma pack_length (fmt : string) (c : Struct.format) (v : pyobj)
    (bs : list byte) :
  Struct.parse fmt = Some c -> Struct.pack fmt v = Ok bs ->
  length bs = Struct.calcsize c.
Proof.
  unfold Struct.pack. intros ->.
  assert (Hbe : forall n z (r : result (list byte)),
    (r = Ok (be_bytes n z) \/ exists e, r = Raise e) ->
    r = Ok bs -> length bs = n).
  { intros n z r [->|[e ->]] H; [|discriminate H].
    injection H as <-. apply length_be_bytes. }
  destruct c;
    try (destruct v; try (intros H; discriminate H);
         eapply Hbe;
         match goal with |- context [if ?b then _ else _] => destruct b end;
         eauto).
  - destruct (Struct.as_double v); cbv iota beta zeta;
      [|intros H; discriminate H].
    eapply Hbe.
    match goal with |- context [if ?b then _ else _] => destruct b end; eauto.
  - destruct (Struct.as_double v); cbv iota beta;
      [|intros H; discriminate H].
    eapply Hbe. eauto.
Qed.

(** A [write] that returns has sought, has encoded the value into at least
    one byte, and has handed those bytes to the file in one piece. *)
Lemma write_ok_inv (type : string) (data : pyobj) (base offset : Z)
    (whence : string) (f f1 : file) (n : Z) :
  write type data base offset whence f = (Ok n, f1) ->
  exists f0 bs,
    seek (base + offset) whence f = (Ok tt, f0) /\
    bs <> [] /\ file_write bs f0 = (Ok n, f1).
Proof.
  unfold write. intros H.
  destruct (seek (base + offset) whence f) as [[[]|e] f0] eqn:Hseek.
  2: { rewrite (bind_raise _ _ _ _ _ Hseek) in H. discriminate. }
  rewrite (bind_ok _ _ _ _ _ Hseek) in H.
  exists f0.
  assert (Hpack : forall fmt c,
    Struct.parse fmt = Some c -> pack_to_file fmt data f0 = (Ok n, f1) ->
    exists bs, bs <> [] /\ file_write bs f0 = (Ok n, f1)).
  { intros fmt c Hp. unfold pack_to_file. unfold_M.
    destruct (Struct.pack fmt data) as [bs|e] eqn:E; cbv beta iota; [|intros Hx; discriminate Hx].
    intros Hw. exists bs. split; [|exact Hw].
    pose proof (pack_length _ _ _ _ Hp E) as Hl.
    pose proof (calcsize_pos c). destruct bs; [simpl in Hl; lia | discriminate]. }
  repeat case_decide;
    try (eapply Hpack in H; [|reflexivity];
         destruct H as (bs & Hne & Hw);
         exists bs; split; [reflexivity | split; assumption]).
  - revert H. unfold_M.
    destruct (bytes_ascii data) as [bs|e]; cbv beta iota; [|intros Hx; discriminate Hx].
    intros Hw. exists (bs ++ [x00]).
    split; [reflexivity|]. split; [destruct bs; discriminate | exact Hw].
  - discriminate H.
Qed.

Lemma write_raise_inv (type : string) (data : pyobj) (base offset : Z)
    (whence : string) (f f' : file) (e : exn) :
  write type data base offset whence f = (Raise e, f') ->
  (seek (base + offset) whence f = (Raise e, f) /\ f' = f) \/
  seek (base + offset) whence f = (Ok tt, f').
Proof.
  unfold write. intros H.
  destruct (seek (base + offset) whence f) as [[[]|e0] f0] eqn:Hseek.
  2: { rewrite (bind_raise _ _ _ _ _ Hseek) in H. injection H as <- <-.
       left. rewrite (seek_raise_inv _ _ _ _ _ Hseek). split; reflexivity. }
  rewrite (bind_ok _ _ _ _ _ Hseek) in H. right.
  assert (Hfw : forall bs e1 g, file_write bs f0 = (Raise e1, g) -> False).
  { intros bs e1 g. unfold file_write. destruct bs; discriminate. }
  assert (Hpack : forall fmt,
    pack_to_file fmt data f0 = (Raise e, f') -> f0 = f').
  { intros fmt. unfold pack_to_file. unfold_M.
    destruct (Struct.pack fmt data) as [bs|e1]; cbv beta iota; [|congruence].
    intros Hw. destruct (Hfw _ _ _ Hw). }
  repeat case_decide; try (rewrite (Hpack _ H); reflexivity).
  - revert H. unfold_M.
    destruct (bytes_ascii data) as [bs|e1]; cbv beta iota; [|congruence].
    intros Hw. destruct (Hfw _ _ _ Hw).
  - injection H as _ <-. reflexivity.
Qed.

(** ** Operations that only read *)

Create HintDb read_only.

Lemma read_only_ret {A : Type} (a : A) : read_only (mret a).
Proof. intros f. reflexivity. Qed.

Lemma read_only_raise {A : Type} (e : exn) : read_only (@raise A e).
Proof. intros f. reflexivity. Qed.

Lemma read_only_lift {A : Type} (r : result A) : read_only (lift r).
Proof. intros f. reflexivity. Qed.

Lemma read_only_bind {A B : Type} (m : M A) (k : A -> M B) :
  read_only m -> (forall a, read_only (k a)) -> read_only (m ≫= k).
Proof.
  intros Hm Hk f. unfold_M. specialize (Hm f).
  destruct (m f) as [[a|e] g]; simpl in *; [|exact Hm].
  rewrite Hk. exact Hm.
Qed.

Lemma read_only_file_seek (offset whence : Z) : read_only (file_seek offset whence).
Proof. intros f. unfold file_seek. repeat case_decide; reflexivity. Qed.

Lemma read_only_file_read (size : Z) : read_only (file_read size).
Proof. intros f. unfold file_read. repeat case_decide; reflexivity. Qed.

Lemma read_only_file_tell : read_only file_tell.
Proof. intros f. reflexivity. Qed.

Lemma read_only__read_string : read_only _read_string.
Proof.
  intros f. unfold _read_string.
  destruct (drop (pos f) (content f)) as [|b rest]; [reflexivity|].
  destruct (_read_string_while rest [] b (S (pos f))). reflexivity.
Qed.

#[local] Hint Resolve read_only_ret read_only_raise read_only_lift
  read_only_file_seek read_only_file_read read_only_file_tell
  read_only__read_string : read_only.
#[local] Hint Extern 2 (read_only (_ ≫= _)) =>
  apply read_only_bind; [|intros ?] : read_only.
#[local] Hint Extern 3 (read_only (if ?b then _ else _)) =>
  destruct b : read_only.

Lemma read_only_seek (offset : Z) (whence : string) : read_only (seek offset whence).
Proof. unfold seek. auto 10 with read_only. Qed.

Lemma read_only_unpack_from_file (fmt : string) (size : Z) :
  read_only (unpack_from_file fmt size).
Proof. unfold unpack_from_file. auto 10 with read_only. Qed.

#[local] Hint Resolve read_only_seek read_only_unpack_from_file : read_only.

(** X1: reading never changes what the file holds: [read], [read_chunk],
    [seek] and [tell] leave the content as it is, whatever the arguments and
    whether they return or raise. *)
Theorem reading_is_read_only (type : string) (base offset size : Z)
    (whence : string) :
  read_only (read type base offset whence) /\
  read_only (read_chunk offset size whence) /\
  read_only (seek offset whence) /\
  read_only tell.
Proof.
  split; [|split; [|split]].
  - unfold read. auto 20 with read_only.
  - unfold read_chunk. auto 10 with read_only.
  - auto with read_only.
  - unfold tell. auto with read_only.
Qed.

(** ** Raw chunks, written and read back *)

Lemma write_chunk_seek (data : list byte) (offset : Z) (whence : string)
    (f f0 : file) :
  seek offset whence f = (Ok tt, f0) ->
  write_chunk data offset whence f = file_write data f0.
Proof.
  intros H. unfold write_chunk.
  exact (bind_ok _ (fun _ => file_write data) _ _ _ H).
Qed.

(** X2: [write_chunk(data, offset)] followed by
    [read_chunk(offset, len(data))] gives [data] back, for every byte
    string (the empty one too) and every offset, past the end of the file
    or not; the write returns [len(data)] and the cursor ends at
    [offset + len(data)]. *)
Theorem chunk_roundtrip (data : list byte) (offset : Z) (f : file) :
  0 <= offset ->
  exists f1 f2,
    write_chunk data offset "start" f = (Ok (Z.of_nat (length data)), f1) /\
    read_chunk offset (Z.of_nat (length data)) "start" f1 = (Ok data, f2) /\
    tell f2 = (Ok (offset + Z.of_nat (length data)), f2).
Proof.
  intros Hpos. set (p := Z.to_nat offset).
  assert (Hs : forall g, seek offset "start" g = (Ok tt, File (content g) p))
    by (intros g; apply seek_start, Hpos).
  destruct data as [|b data].
  - exists (File (content f) p), (File (content f) (p + 0)).
    split; [rewrite (write_chunk_seek _ _ _ _ _ (Hs f)); reflexivity|].
    split.
    + unfold read_chunk. rewrite (bind_ok _ _ _ _ _ (Hs _)).
      rewrite file_read_nonneg by (simpl; lia). reflexivity.
    + unfold tell, file_tell. cbn [pos length]. do 2 f_equal. lia.
  - set (d := b :: data).
    destruct (file_write_at d (content f) p) as (c' & Hw & Hdrop & _);
      [discriminate|].
    exists (File c' (p + length d)), (File c' (p + length d)).
    split; [rewrite (write_chunk_seek _ _ _ _ _ (Hs f)); exact Hw|].
    split.
    + unfold read_chunk. rewrite (bind_ok _ _ _ _ _ (Hs _)).
      apply (read_back d c' _ p Hdrop).
    + unfold tell, file_tell. cbn [pos]. do 2 f_equal. lia.
Qed.

Lemma chunk_roundtrip_witness :
  exists f1 f2,
    write_chunk [x0a; x0b] 5 "start" (File [x01] 0)
    = (Ok (Z.of_nat (length [x0a; x0b])), f1) /\
    read_chunk 5 (Z.of_nat (length [x0a; x0b])) "start" f1
    = (Ok [x0a; x0b], f2) /\
    tell f2 = (Ok (5 + Z.of_nat (length [x0a; x0b])), f2).
Proof. apply (chunk_roundtrip [x0a; x0b] 5 (File [x01] 0)). lia. Defined.

(** X3: the file after [write_chunk] of a non-empty byte string, byte by
    byte: the bytes before the cursor are the old ones, zeros where the old
    file was shorter than the cursor; then come the data; the bytes after
    the written range are the old ones.  The file grows to the end of the
    written range when that lies past its old end, and never shrinks. *)
Theorem write_chunk_bytes (data : list byte) (offset : Z) (whence : string)
    (f f0 : file) :
  seek offset whence f = (Ok tt, f0) ->
  data <> [] ->
  exists f1,
    write_chunk data offset whence f = (Ok (Z.of_nat (length data)), f1) /\
    pos f1 = (pos f0 + length data)%nat /\
    length (content f1) = (length (content f) `max` pos f1)%nat /\
    forall i : nat,
      content f1 !! i
      = if decide (i < pos f0)%nat
        then (if decide (i < length (content f))%nat
              then content f !! i else Some x00)
        else if decide (i < pos f1)%nat then data !! (i - pos f0)%nat
        else content f !! i.
Proof.
  intros Hseek Hne.
  destruct (seek_ok_inv _ _ _ _ Hseek) as [Hc _].
  destruct f0 as [c0 p0]. cbn [content pos] in *. subst c0.
  destruct (file_write_lookup data (content f) p0 Hne) as (c' & Hw & Hlen & Hl).
  exists (File c' (p0 + length data)).
  split; [rewrite (write_chunk_seek _ _ _ _ _ Hseek); exact Hw|].
  cbn [content pos]. split; [reflexivity|]. split; [exact Hlen | exact Hl].
Qed.

Lemma write_chunk_bytes_witness :
  exists f1,
    write_chunk [x0a; x0b] 3 "start" (File [x01] 0)
    = (Ok (Z.of_nat (length [x0a; x0b])), f1) /\
    pos f1 = (pos (File [x01] 3) + length [x0a; x0b])%nat /\
    length (content f1) = (length (content (File [x01] 0)) `max` pos f1)%nat /\
    forall i : nat,
      content f1 !! i
      = if decide (i < pos (File [x01] 3))%nat
        then (if decide (i < length (content (File [x01] 0)))%nat
              then content (File [x01] 0) !! i else Some x00)
        else if decide (i < pos f1)%nat
             then [x0a; x0b] !! (i - pos (File [x01] 3))%nat
        else content (File [x01] 0) !! i.
Proof.
  apply (write_chunk_bytes [x0a; x0b] 3 "start" (File [x01] 0) (File [x01] 3));
    [reflexivity | discriminate].
Defined.

(** X4: a [write] that returns has changed nothing outside the range it
    wrote: it wrote at least one byte, the cursor ends right after the
    range, and every byte before the range (zeros where the file was shorter
    than the cursor) and after it is as before. *)
Theorem write_changes_only_its_range (type : string) (data : pyobj)
    (base offset : Z) (whence : string) (f f1 : file) (n : Z) :
  write type data base offset whence f = (Ok n, f1) ->
  exists f0,
    seek (base + offset) whence f = (Ok tt, f0) /\
    0 < n /\ Z.of_nat (pos f1) = Z.of_nat (pos f0) + n /\
    length (content f1) = (length (content f) `max` pos f1)%nat /\
    forall i : nat,
      (i < pos f0)%nat \/ (pos f1 <= i)%nat ->
      content f1 !! i
      = (content f ++ replicate (pos f0 - length (content f)) x00) !! i.
Proof.
  intros H. destruct (write_ok_inv _ _ _ _ _ _ _ _ H) as (f0 & bs & Hseek & Hne & Hw).
  exists f0. split; [exact Hseek|].
  destruct (seek_ok_inv _ _ _ _ Hseek) as [Hc _].
  destruct f0 as [c0 p0]. cbn [content pos] in *. subst c0.
  destruct (file_write_lookup bs (content f) p0 Hne) as (c' & Hw' & Hlen & Hl).
  rewrite Hw' in Hw. injection Hw as <- <-. cbn [content pos].
  assert (0 < length bs)%nat by (destruct bs; [congruence | simpl; lia]).
  split; [lia|]. split; [lia|]. split; [exact Hlen|].
  intros i Hi. rewrite Hl.
  destruct (decide (i < p0)%nat) as [Hp|Hp].
  - destruct (decide (i < length (content f))%nat).
    + symmetry. apply lookup_app_l. lia.
    + rewrite lookup_app_r by lia. symmetry. apply lookup_replicate_2. lia.
  - destruct (decide (i < p0 + length bs)%nat); [lia|].
    destruct (decide (i < length (content f))%nat).
    + symmetry. apply lookup_app_l. lia.
    + rewrite lookup_app_r by lia.
      rewrite (lookup_ge_None_2 (content f)) by lia.
      symmetry. apply lookup_ge_None_2. rewrite length_replicate. lia.
Qed.

Lemma write_changes_only_its_range_witness :
  exists f0,
    seek (2 + 0) "start" (File [x01; x02; x03; x04; x05] 0) = (Ok tt, f0) /\
    0 < 2 /\
    Z.of_nat (pos (File [x01; x02; xff; xfe; x05] 4)) = Z.of_nat (pos f0) + 2 /\
    length (content (File [x01; x02; xff; xfe; x05] 4))
    = (length (content (File [x01; x02; x03; x04; x05] 0))
       `max` pos (File [x01; x02; xff; xfe; x05] 4))%nat /\
    forall i : nat,
      (i < pos f0)%nat \/ (pos (File [x01; x02; xff; xfe; x05] 4) <= i)%nat ->
      content (File [x01; x02; xff; xfe; x05] 4) !! i
      = (content (File [x01; x02; x03; x04; x05] 0)
         ++ replicate (pos f0 - length (content (File [x01; x02; x03; x04; x05] 0)))
              x00) !! i.
Proof.
  apply (write_changes_only_its_range "short" (PyInt (-2)) 2 0 "start"
           (File [x01; x02; x03; x04; x05] 0)
           (File [x01; x02; xff; xfe; x05] 4) 2).
  reflexivity.
Defined.

(** X5: a [write] that raises has written nothing: the content of the file
    is as before, and the cursor is either where it was (the seek raised) or
    where the seek put it (the value could not be encoded, or the descriptor
    is unknown). *)
Theorem failed_write_writes_nothing (type : string) (data : pyobj)
    (base offset : Z) (whence : string) (f f' : file) (e : exn) :
  write type data base offset whence f = (Raise e, f') ->
  content f' = content f /\
  ((f' = f /\ seek (base + offset) whence f = (Raise e, f)) \/
   seek (base + offset) whence f = (Ok tt, f')).
Proof.
  intros H. destruct (write_raise_inv _ _ _ _ _ _ _ _ H) as [[Hs ->]|Hs].
  - split; [reflexivity | left; split; [reflexivity | exact Hs]].
  - split; [apply (seek_ok_inv _ _ _ _ Hs) | right; exact Hs].
Qed.

Lemma failed_write_writes_nothing_witness :
  content (File [x01] 2) = content (File [x01] 0) /\
  ((File [x01] 2 = File [x01] 0 /\
    seek (2 + 0) "start" (File [x01] 0) = (Raise StructError, File [x01] 0)) \/
   seek (2 + 0) "start" (File [x01] 0) = (Ok tt, File [x01] 2)).
Proof.
  apply (failed_write_writes_nothing "uchar" (PyInt 300) 2 0 "start"
           (File [x01] 0) (File [x01] 2) StructError).
  reflexivity.
Defined.

(** ** Decoding, then encoding *)

Lemma byte_of_Z_of_byte (b : byte) : byte_of_Z (Z_of_byte b) = b.
Proof.
  unfold Z_of_byte, byte_of_Z. rewrite N2Z.id, Byte.of_to_N. reflexivity.
Qed.

Lemma be_value_acc (bs : list byte) (acc : Z) :
  fold_left (fun a b => a * 256 + Z_of_byte b) bs acc
  = acc * 256 ^ Z.of_nat (length bs) + be_value bs.
Proof.
  unfold be_value. revert acc. induction bs as [|b bs IH]; intros acc.
  - simpl. lia.
  - cbn [fold_left length]. rewrite (IH (acc * 256 + Z_of_byte b)).
    rewrite (IH (0 * 256 + Z_of_byte b)).
    rewrite Nat2Z.inj_succ, Z.pow_succ_r by lia. lia.
Qed.

Lemma be_value_cons (b : byte) (bs : list byte) :
  be_value (b :: bs) = Z_of_byte b * 256 ^ Z.of_nat (length bs) + be_value bs.
Proof.
  unfold be_value at 1. cbn [fold_left]. rewrite be_value_acc. lia.
Qed.

Lemma be_value_app (bs1 bs2 : list byte) :
  be_value (bs1 ++ bs2)
  = be_value bs1 * 256 ^ Z.of_nat (length bs2) + be_value bs2.
Proof.
  unfold be_value at 1. rewrite fold_left_app.
  fold (be_value bs1). apply be_value_acc.
Qed.

Lemma be_value_range (bs : list byte) :
  0 <= be_value bs < 256 ^ Z.of_nat (length bs).
Proof.
  induction bs as [|b bs IH].
  - unfold be_value. simpl. lia.
  - rewrite be_value_cons. cbn [length].
    rewrite Nat2Z.inj_succ, Z.pow_succ_r by lia.
    pose proof (Z_of_byte_range b). nia.
Qed.

Lemma be_bytes_add_high (n : nat) (a w : Z) :
  be_bytes n (a * 256 ^ Z.of_nat n + w) = be_bytes n w.
Proof.
  revert a. induction n as [|n IH]; intros a; [reflexivity|].
  cbn [be_bytes].
  assert (Hp : 0 < 256 ^ Z.of_nat n) by (apply Z.pow_pos_nonneg; lia).
  rewrite Nat2Z.inj_succ, Z.pow_succ_r by lia.
  replace (a * (256 * 256 ^ Z.of_nat n) + w)
    with (w + (a * 256) * 256 ^ Z.of_nat n) by lia.
  f_equal.
  - f_equal. rewrite Z.div_add by lia. apply Z_mod_plus_full.
  - rewrite Z.add_comm. apply IH.
Qed.

(** The bytes of the number that bytes denote are those bytes. *)
Lemma be_bytes_be_value (bs : list byte) :
  be_bytes (length bs) (be_value bs) = bs.
Proof.
  induction bs as [|b bs IH]; [reflexivity|].
  cbn [length be_bytes]. rewrite be_value_cons.
  pose proof (be_value_range bs) as Hr. pose proof (Z_of_byte_range b) as Hb.
  assert (Hp : 0 < 256 ^ Z.of_nat (length bs)) by (apply Z.pow_pos_nonneg; lia).
  f_equal.
  - rewrite Z.div_add_l by lia. rewrite (Z.div_small (be_value bs)) by lia.
    rewrite Z.add_0_r, Z.mod_small by lia. apply byte_of_Z_of_byte.
  - rewrite be_bytes_add_high. exact IH.
Qed.

Lemma digits2_pos_unique (m : positive) (d : Z) :
  2 ^ (d - 1) <= Z.pos m < 2 ^ d -> 0 < d -> Z.pos (digits2_pos m) = d.
Proof.
  intros [Hlo Hhi] Hd. pose proof (digits2_pos_bounds m) as [Hlo' Hhi'].
  assert (d - 1 < Z.pos (digits2_pos m)).
  { apply (Z.pow_lt_mono_r_iff 2); lia. }
  assert (Z.pos (digits2_pos m) - 1 < d).
  { apply (Z.pow_lt_mono_r_iff 2); lia. }
  lia.
Qed.

Section BitsOfAnyPattern.
Variables mw ew : Z.
Hypothesis Hmw : 0 < mw.
Hypothesis Hew : 1 < ew.

Local Abbreviation P := (2 ^ mw).
Local Abbreviation Q := (2 ^ ew).

(** Every bit pattern denotes a float of the format. *)
Lemma float_of_bits_valid (u : Z) :
  is_float mw ew (float_of_bits mw ew u) = true.
Proof.
  pose proof (P_pos mw Hmw) as HP.
  pose proof (Q_femax ew Hew) as HQ. pose proof (femax_pos ew Hew) as Hemax.
  assert (Hex : 0 <= (u / P) mod Q < Q) by (apply Z.mod_pos_bound; lia).
  assert (Hmx : 0 <= u mod P < P) by (apply Z.mod_pos_bound; lia).
  unfold float_of_bits, is_float. cbv zeta.
  destruct (Z.eqb_spec ((u / P) mod Q) 0) as [E0|E0].
  - destruct (u mod P) as [|m|m] eqn:Em; [reflexivity| |reflexivity].
    cbn [valid_binary]. unfold bounded, canonical_mantissa, fexp.
    apply andb_true_intro. split.
    + apply Z.eqb_eq. fold (femin mw ew).
      pose proof (digits2_pos_bounds m) as [Hlo _].
      assert (Z.pos (digits2_pos m) - 1 < mw).
      { apply (Z.pow_lt_mono_r_iff 2); lia. }
      unfold fprec. lia.
    + apply Z.leb_le. unfold femin, emin, fprec. lia.
  - destruct (Z.eqb_spec ((u / P) mod Q) (Q - 1)) as [E1|E1].
    + destruct (u mod P =? 0); reflexivity.
    + destruct (u mod P + P) as [|m|m] eqn:Em; [reflexivity| |reflexivity].
      cbn [valid_binary]. unfold bounded, canonical_mantissa, fexp.
      assert (Hd : Z.pos (digits2_pos m) = fprec mw).
      { apply digits2_pos_unique; [|unfold fprec; lia].
        rewrite (pow_prec mw Hmw). unfold fprec.
        replace (mw + 1 - 1) with mw by lia. lia. }
      rewrite Hd. apply andb_true_intro. split.
      * apply Z.eqb_eq. unfold femin, emin, fprec. lia.
      * apply Z.leb_le. unfold femin, emin, fprec. lia.
Qed.

(** Encoding the float a bit pattern denotes gives the pattern back, unless
    it is a NaN (whose payload the float does not keep). *)
Lemma bits_of_float_of_bits (u : Z) :
  0 <= u < 2 ^ (mw + ew + 1) ->
  is_nan (float_of_bits mw ew u) = false ->
  bits_of_float mw ew (float_of_bits mw ew u) = u.
Proof.
  intros Hu. pose proof (P_pos mw Hmw) as HP.
  pose proof (Q_femax ew Hew) as HQ. pose proof (femax_pos ew Hew) as Hemax.
  rewrite (Z.pow_add_r 2 (mw + ew) 1) in Hu by lia. change (2 ^ 1) with 2 in Hu.
  rewrite (pow_mw_ew mw ew Hmw Hew) in Hu.
  assert (Hex : 0 <= (u / P) mod Q < Q) by (apply Z.mod_pos_bound; lia).
  assert (Hmx : 0 <= u mod P < P) by (apply Z.mod_pos_bound; lia).
  pose proof (Z.div_mod u P ltac:(lia)) as Hdm1.
  pose proof (Z.div_mod (u / P) Q ltac:(lia)) as Hdm2.
  set (a := u / P) in *. set (mx := u mod P) in *.
  set (b := a / Q) in *. set (ex := a mod Q) in *.
  assert (Ha : 0 <= a < 2 * Q) by nia.
  assert (Hb : b = 0 \/ b = 1) by nia.
  assert (Hsign : sign_bit mw ew (2 ^ (mw + ew) <=? u) = b * (Q * P)).
  { unfold sign_bit. rewrite (pow_mw_ew mw ew Hmw Hew).
    destruct (Z.leb_spec (Q * P) u); destruct Hb as [-> | ->]; nia. }
  assert (Hu' : u = b * (Q * P) + ex * P + mx) by nia.
  unfold float_of_bits. cbv zeta. fold a mx ex.
  destruct (Z.eqb_spec ex 0) as [E0|E0].
  - destruct mx as [|m|m] eqn:Em; intros _; cbn [bits_of_float].
    + rewrite Hsign. lia.
    + destruct (Z.leb_spec P (Z.pos m)); [lia|]. rewrite Hsign. lia.
    + lia.
  - destruct (Z.eqb_spec ex (Q - 1)) as [E1|E1].
    + destruct (Z.eqb_spec mx 0) as [Em|Em]; [|discriminate].
      intros _. cbn [bits_of_float]. rewrite Hsign. lia.
    + destruct (mx + P) as [|m|m] eqn:Em; [discriminate| |discriminate].
      intros _. cbn [bits_of_float].
      destruct (Z.leb_spec P (Z.pos m)); [|lia]. rewrite Hsign.
      rewrite <- Em. nia.
Qed.
End BitsOfAnyPattern.

(** ** Reading fixed-width values from any file *)

(** The descriptors with a positive width are the eight that have a
    [struct] format, and the width is the size of the format. *)
Lemma primitive_size_pos_inv (type : string) (n : Z) :
  primitive_size type = Ok n -> 0 < n ->
  exists fmt c, fixed_format type fmt c /\ n = Z.of_nat (Struct.calcsize c).
Proof.
  intros Hn Hpos. destruct (is_primitive type) eqn:Hp.
  - apply is_primitive_true in Hp.
    repeat destruct Hp as [->|Hp]; try subst type;
      vm_compute in Hn; injection Hn as <-;
      try lia; do 2 eexists; (split; [constructor | reflexivity]).
  - unfold primitive_size in Hn. rewrite Hp in Hn.
    destruct (decide (type = "string")); injection Hn as <-; lia.
Qed.

Lemma read_fixed_at (type fmt : string) (c : Struct.format) (base offset : Z)
    (whence : string) (f f0 : file) :
  fixed_format type fmt c ->
  seek (base + offset) whence f = (Ok tt, f0) ->
  let data := take (Struct.calcsize c) (drop (pos f0) (content f)) in
  read type base offset whence f
  = (match Struct.unpack fmt data with
     | Ok items => item0 items
     | Raise e => Raise e
     end,
     File (content f) (pos f0 + length data)).
Proof.
  intros Hf Hseek data.
  destruct (seek_ok_inv _ _ _ _ Hseek) as [Hc _].
  rewrite (read_fixed _ _ _ _ _ _ _ Hf), (bind_ok _ _ _ _ _ Hseek).
  unfold unpack_from_file, lift, mbind, M_bind.
  rewrite file_read_nonneg by lia. rewrite Nat2Z.id, Hc. fold data.
  destruct (Struct.unpack fmt data); reflexivity.
Qed.

Lemma unpack_wrong_size (fmt : string) (c : Struct.format) (bs : list byte) :
  Struct.parse fmt = Some c -> length bs <> Struct.calcsize c ->
  Struct.unpack fmt bs = Raise StructError.
Proof.
  intros Hp Hl. unfold Struct.unpack. rewrite Hp.
  destruct (Nat.eqb_spec (length bs) (Struct.calcsize c)); [contradiction|].
  reflexivity.
Qed.

(** The integer that an integer format decodes: it lies in the range of the
    format and is the unsigned value of the bytes modulo [2 ^ (8 n)]. *)
Lemma unpack_int_inv (fmt : string) (c : Struct.format) (bs : list byte) :
  Struct.parse fmt = Some c -> Struct.is_integer c = true ->
  length bs = Struct.calcsize c ->
  exists z,
    Struct.unpack fmt bs = Ok [PyInt z] /\
    Struct.min_int c <= z <= Struct.max_int c /\
    z mod 2 ^ (8 * Z.of_nat (Struct.calcsize c)) = be_value bs.
Proof.
  intros Hp Hi Hl. unfold Struct.unpack. rewrite Hp, Hl, Nat.eqb_refl.
  cbn [negb]. pose proof (be_value_range bs) as Hr.
  rewrite Hl, pow_256 in Hr. set (u := be_value bs) in *. clearbody u.
  destruct c; try discriminate Hi;
    unfold Struct.min_int, Struct.max_int;
    cbn [Struct.is_signed Struct.calcsize andb] in *;
    repeat match goal with
    | H : context [2 ^ ?k] |- _ =>
      let v := eval vm_compute in (2 ^ k) in change (2 ^ k) with v in H
    | |- context [2 ^ ?k] =>
      let v := eval vm_compute in (2 ^ k) in change (2 ^ k) with v
    end;
    try (exists u; split; [reflexivity|]; split; [lia|];
         apply Z.mod_small; lia);
    match goal with
    | |- context [?m <=? u] =>
      destruct (Z.leb_spec m u) as [Hle|Hlt];
      eexists; (split; [reflexivity|]); (split; [lia|])
    end;
    match goal with
    | |- ?x mod ?M = u =>
      first
        [ apply Z.mod_small; lia
        | symmetry; apply (Z.mod_unique x M (-1) u); lia ]
    end.
Qed.

(** X6: reading a fixed-width descriptor where fewer bytes are left than
    its [primitive_size] raises [struct.error]; nothing is returned, and the
    cursor is left at the end of the file (or where the seek put it, past
    the end). *)
Theorem read_past_end (type : string) (n base offset : Z) (whence : string)
    (f f0 : file) :
  primitive_size type = Ok n -> 0 < n ->
  seek (base + offset) whence f = (Ok tt, f0) ->
  Z.of_nat (length (content f)) < Z.of_nat (pos f0) + n ->
  read type base offset whence f
  = (Raise StructError,
     File (content f) (pos f0 `max` length (content f))).
Proof.
  intros Hn Hpos Hseek Hshort.
  destruct (primitive_size_pos_inv type n Hn Hpos) as (fmt & c & Hf & ->).
  rewrite (read_fixed_at _ _ _ _ _ _ _ _ Hf Hseek). cbv zeta.
  assert (Hl : length (take (Struct.calcsize c) (drop (pos f0) (content f)))
               = (length (content f) - pos f0)%nat).
  { rewrite length_take, length_drop. lia. }
  rewrite (unpack_wrong_size fmt c _ (fixed_format_parse _ _ _ Hf)) by lia.
  rewrite Hl. do 2 f_equal. lia.
Qed.

Lemma read_past_end_witness :
  read "uint" 1 0 "start" (File [x01; x02; x03] 0)
  = (Raise StructError,
     File (content (File [x01; x02; x03] 0))
          (pos (File [x01; x02; x03] 1)
           `max` length (content (File [x01; x02; x03] 0)))).
Proof.
  apply (read_past_end "uint" 4 1 0 "start" (File [x01; x02; x03] 0)
           (File [x01; x02; x03] 1)); [reflexivity | lia | reflexivity |].
  simpl. lia.
Defined.

(** X7: reading a fixed-width descriptor where at least [primitive_size]
    bytes are left returns a value and moves the cursor past exactly that
    many bytes; for an integer descriptor the value is an integer within the
    descriptor's range, and for ['float'] and ['double'] it is a Python
    float. *)
Theorem read_fixed_width (type : string) (n base offset : Z)
    (whence : string) (f f0 : file) :
  primitive_size type = Ok n -> 0 < n ->
  seek (base + offset) whence f = (Ok tt, f0) ->
  Z.of_nat (pos f0) + n <= Z.of_nat (length (content f)) ->
  exists v,
    read type base offset whence f
    = (Ok v, File (content f) (pos f0 + Z.to_nat n)) /\
    match int_range type with
    | Some (lo, hi) => exists z, v = PyInt z /\ lo <= z <= hi
    | None => exists x, v = PyFloat x /\ is_float 52 11 x = true
    end.
Proof.
  intros Hn Hpos Hseek Hlen.
  destruct (primitive_size_pos_inv type n Hn Hpos) as (fmt & c & Hf & ->).
  rewrite (read_fixed_at _ _ _ _ _ _ _ _ Hf Hseek). cbv zeta.
  set (data := take (Struct.calcsize c) (drop (pos f0) (content f))).
  assert (Hl : length data = Struct.calcsize c).
  { subst data. rewrite length_take, length_drop. lia. }
  rewrite Hl, Nat2Z.id.
  pose proof (fixed_format_parse _ _ _ Hf) as Hp.
  destruct (Struct.is_integer c) eqn:Hi.
  - destruct (unpack_int_inv fmt c data Hp Hi Hl) as (z & Hu & Hz & _).
    rewrite Hu. exists (PyInt z). split; [reflexivity|].
    destruct Hf; try discriminate Hi; cbn; exists z; (split; [reflexivity|]);
      unfold Struct.min_int, Struct.max_int in Hz; cbn in Hz; lia.
  - destruct Hf; try discriminate Hi; unfold Struct.unpack;
      simpl Struct.parse; rewrite Hl; cbn [Struct.calcsize Nat.eqb negb item0];
      eexists; (split; [reflexivity|]); cbn; eexists; (split; [reflexivity|]).
    + apply convert_widen_valid, float_of_bits_valid; lia.
    + apply float_of_bits_valid; lia.
Qed.

Lemma read_fixed_width_witness :
  exists v,
    read "short" 1 0 "start" (File [x01; xff; xfe] 0)
    = (Ok v, File (content (File [x01; xff; xfe] 0))
               (pos (File [x01; xff; xfe] 1) + Z.to_nat 2)) /\
    match int_range "short" with
    | Some (lo, hi) => exists z, v = PyInt z /\ lo <= z <= hi
    | None => exists x, v = PyFloat x /\ is_float 52 11 x = true
    end.
Proof.
  apply (read_fixed_width "short" 2 1 0 "start" (File [x01; xff; xfe] 0)
           (File [x01; xff; xfe] 1)); [reflexivity | lia | reflexivity |].
  simpl. lia.
Defined.

(** ** Writing back what was read *)

Lemma unpack_ok_inv (fmt : string) (c : Struct.format) (bs : list byte)
    (items : list pyobj) :
  Struct.parse fmt = Some c -> Struct.unpack fmt bs = Ok items ->
  length bs = Struct.calcsize c /\ exists v, items = [v].
Proof.
  intros Hp. unfold Struct.unpack. rewrite Hp.
  destruct (Nat.eqb_spec (length bs) (Struct.calcsize c)) as [Hl|Hl];
    cbn [negb]; [|intros Hx; discriminate Hx].
  intros H. split; [exact Hl|].
  destruct c;
    try (revert H;
         match goal with |- context [if ?b then _ else _] => destruct b end;
         intros H);
    injection H as <-; eexists; reflexivity.
Qed.

Lemma read_fixed_ok_inv (type fmt : string) (c : Struct.format)
    (base offset : Z) (whence : string) (f f1 : file) (v : pyobj) :
  fixed_format type fmt c ->
  read type base offset whence f = (Ok v, f1) ->
  exists f0,
    seek (base + offset) whence f = (Ok tt, f0) /\
    length (take (Struct.calcsize c) (drop (pos f0) (content f)))
    = Struct.calcsize c /\
    Struct.unpack fmt (take (Struct.calcsize c) (drop (pos f0) (content f)))
    = Ok [v] /\
    f1 = File (content f) (pos f0 + Struct.calcsize c).
Proof.
  intros Hf H.
  destruct (seek (base + offset) whence f) as [[[]|e] f0] eqn:Hseek.
  2: { destruct (read_seek_raises type _ _ _ _ _ _ Hseek) as [Hr _].
       rewrite Hr in H. discriminate H. }
  exists f0. split; [reflexivity|].
  rewrite (read_fixed_at _ _ _ _ _ _ _ _ Hf Hseek) in H. cbv zeta in H.
  destruct (Struct.unpack fmt _) as [items|e] eqn:Hu; [|discriminate H].
  destruct (unpack_ok_inv _ _ _ _ (fixed_format_parse _ _ _ Hf) Hu)
    as [Hl [v' ->]].
  cbn [item0] in H. injection H as -> <-.
  rewrite Hl. repeat split; reflexivity.
Qed.

Lemma is_nan_convert (mw ew : Z) (x : spec_float) :
  is_nan (convert mw ew x) = false -> is_nan x = false.
Proof. destruct x; simpl; congruence. Qed.

(** Packing the value that [unpack] gave for some bytes gives those bytes,
    unless the value is a NaN. *)
Lemma pack_unpack (fmt : string) (c : Struct.format) (bs : list byte)
    (v : pyobj) :
  Struct.parse fmt = Some c ->
  Struct.unpack fmt bs = Ok [v] -> is_nan_value v = false ->
  Struct.pack fmt v = Ok bs.
Proof.
  intros Hp Hu Hnan.
  destruct (unpack_ok_inv _ _ _ _ Hp Hu) as [Hl _].
  destruct (Struct.is_integer c) eqn:Hi.
  - destruct (unpack_int_inv fmt c bs Hp Hi Hl) as (z & Hu' & Hz & Hmod).
    rewrite Hu' in Hu. injection Hu as <-.
    rewrite (pack_int_in_range fmt c z Hp Hi Hz), Hmod, <- Hl.
    rewrite be_bytes_be_value. reflexivity.
  - pose proof (be_value_range bs) as Hr. rewrite Hl, pow_256 in Hr.
    unfold Struct.unpack in Hu. rewrite Hp, Hl, Nat.eqb_refl in Hu.
    cbn [negb] in Hu. unfold Struct.pack. rewrite Hp.
    destruct c; try discriminate Hi; injection Hu as <-;
      cbn [is_nan_value] in Hnan; cbn [Struct.as_double].
    + apply is_nan_convert in Hnan.
      pose proof (float_of_bits_valid 23 8 ltac:(lia) ltac:(lia) (be_value bs))
        as Hv.
      rewrite (convert_widen_narrow _ Hv).
      rewrite (bits_of_float_of_bits 23 8 ltac:(lia) ltac:(lia) _ Hr Hnan).
      change 4%nat with (Struct.calcsize Struct.ff). rewrite <- Hl.
      rewrite be_bytes_be_value.
      destruct (float_of_bits 23 8 (be_value bs)); reflexivity.
    + rewrite (bits_of_float_of_bits 52 11 ltac:(lia) ltac:(lia) _ Hr Hnan).
      change 8%nat with (Struct.calcsize Struct.fd). rewrite <- Hl.
      rewrite be_bytes_be_value. reflexivity.
Qed.

(** Writing, at the cursor, the bytes that are already there. *)
Lemma file_write_same (c : list byte) (p n : nat) :
  (0 < n)%nat -> length (take n (drop p c)) = n ->
  file_write (take n (drop p c)) (File c p)
  = (Ok (Z.of_nat n), File c (p + n)).
Proof.
  intros Hn Hl.
  assert (Hlen : (p + n <= length c)%nat).
  { rewrite length_take, length_drop in Hl. lia. }
  destruct (file_write_at (take n (drop p c)) c p) as (c' & Hw & Hdrop & Htake).
  { intros E. rewrite E in Hl. simpl in Hl. lia. }
  rewrite Hl in Hw, Hdrop. rewrite Hw. do 2 f_equal.
  rewrite <- (take_drop p c'), Hdrop, Htake.
  rewrite take_app_le by lia.
  rewrite app_assoc, take_take_drop, take_drop. reflexivity.
Qed.

(** X8: writing back, with the same descriptor and at the same place, the
    value that [read] returned for a fixed-width descriptor changes nothing:
    the [write] returns the width and leaves the file exactly as the [read]
    left it.  (A NaN is excepted: a float does not keep the payload.) *)
Theorem write_back_what_was_read (type : string) (n base offset : Z)
    (whence : string) (f f1 : file) (v : pyobj) :
  primitive_size type = Ok n -> 0 < n ->
  read type base offset whence f = (Ok v, f1) ->
  is_nan_value v = false ->
  write type v base offset whence f = (Ok n, f1).
Proof.
  intros Hn Hpos Hread Hnan.
  destruct (primitive_size_pos_inv type n Hn Hpos) as (fmt & c & Hf & ->).
  destruct (read_fixed_ok_inv _ _ _ _ _ _ _ _ _ Hf Hread)
    as (f0 & Hseek & Hl & Hu & ->).
  destruct (seek_ok_inv _ _ _ _ Hseek) as [Hc _].
  rewrite (write_fixed _ _ _ _ _ _ _ _ Hf), (bind_ok _ _ _ _ _ Hseek).
  unfold pack_to_file, lift, mbind, M_bind.
  rewrite (pack_unpack _ _ _ _ (fixed_format_parse _ _ _ Hf) Hu Hnan).
  destruct f0 as [c0 p0]. cbn [content pos] in *. subst c0.
  apply file_write_same; [apply calcsize_pos | exact Hl].
Qed.

Lemma write_back_what_was_read_witness :
  write "int" (PyInt (-2)) 1 0 "start" (File [x01; xff; xff; xff; xfe] 0)
  = (Ok 4, File [x01; xff; xff; xff; xfe] 5).
Proof.
  apply (write_back_what_was_read "int" 4 1 0 "start"
           (File [x01; xff; xff; xff; xfe] 0)
           (File [x01; xff; xff; xff; xfe] 5) (PyInt (-2)));
    [reflexivity | lia | reflexivity | reflexivity].
Defined.

(** ** Strings in any file *)

Lemma _read_string_while_no_zero (rest : list byte) (acc : pystr) (b : byte)
    (p : nat) :
  Z_of_byte b <> 0 -> Forall (fun b => Z_of_byte b <> 0) rest ->
  _read_string_while rest acc b p = (Raise IndexError, (p + length rest)%nat).
Proof.
  intros Hb Hrest. revert acc b p Hb.
  induction Hrest as [|b' rest Hb' _ IH]; intros acc b p Hb;
    cbn [_read_string_while]; destruct (decide (Z_of_byte b = 0));
    try contradiction.
  - simpl. do 2 f_equal. lia.
  - rewrite (IH _ b' (S p) Hb'). cbn [length]. f_equal. lia.
Qed.

(** X9: [read('string', ...)] returns the characters of the bytes from the
    cursor up to the first zero byte, one character per byte, and leaves the
    cursor right after that zero byte; what follows the zero byte plays no
    part. *)
Theorem read_string_to_first_zero (bs tail : list byte) (base offset : Z)
    (whence : string) (f f0 : file) :
  seek (base + offset) whence f = (Ok tt, f0) ->
  drop (pos f0) (content f) = bs ++ x00 :: tail ->
  Forall (fun b => Z_of_byte b <> 0) bs ->
  read "string" base offset whence f
  = (Ok (PyStr (map chr bs)), File (content f) (pos f0 + length bs + 1)).
Proof.
  intros Hseek Hd Hnz.
  destruct (seek_ok_inv _ _ _ _ Hseek) as [Hc _].
  rewrite read_string, (bind_ok _ _ _ _ _ Hseek).
  destruct f0 as [c0 p0]. cbn [content pos] in *. subst c0.
  rewrite (_read_string_at (content f) bs tail p0 Hnz Hd).
  do 2 f_equal. lia.
Qed.

Lemma read_string_to_first_zero_witness :
  read "string" 1 0 "start" (File [x01; x68; x69; x00; x7a] 0)
  = (Ok (PyStr (map chr [x68; x69])),
     File (content (File [x01; x68; x69; x00; x7a] 0))
          (pos (File [x01; x68; x69; x00; x7a] 1) + length [x68; x69] + 1)).
Proof.
  apply (read_string_to_first_zero [x68; x69] [x7a] 1 0 "start"
           (File [x01; x68; x69; x00; x7a] 0)
           (File [x01; x68; x69; x00; x7a] 1)); [reflexivity | reflexivity |].
  repeat constructor; discriminate.
Defined.

(** X10: [read('string', ...)] where no zero byte follows the cursor (at or
    past the end of the file in particular) raises [IndexError], with the
    cursor left at the end of the file, or where the seek put it past the
    end. *)
Theorem read_string_unterminated_raises (base offset : Z) (whence : string)
    (f f0 : file) :
  seek (base + offset) whence f = (Ok tt, f0) ->
  Forall (fun b => Z_of_byte b <> 0) (drop (pos f0) (content f)) ->
  read "string" base offset whence f
  = (Raise IndexError, File (content f) (pos f0 `max` length (content f))).
Proof.
  intros Hseek Hnz.
  destruct (seek_ok_inv _ _ _ _ Hseek) as [Hc _].
  rewrite read_string, (bind_ok _ _ _ _ _ Hseek).
  destruct f0 as [c0 p0]. cbn [content pos] in *. subst c0.
  unfold _read_string. cbn [content pos].
  pose proof (length_drop (content f) p0) as Hl.
  destruct (drop p0 (content f)) as [|b rest] eqn:Ed.
  - simpl in Hl. do 2 f_equal. lia.
  - inversion Hnz as [|? ? Hb Hrest]; subst.
    rewrite (_read_string_while_no_zero rest [] b (S p0) Hb Hrest).
    cbn [length] in Hl. do 2 f_equal. lia.
Qed.

Lemma read_string_unterminated_raises_witness :
  read "string" 1 0 "start" (File [x00; x68; x69] 0)
  = (Raise IndexError,
     File (content (File [x00; x68; x69] 0))
          (pos (File [x00; x68; x69] 1) `max` length (content (File [x00; x68; x69] 0)))).
Proof.
  apply (read_string_unterminated_raises 1 0 "start" (File [x00; x68; x69] 0)
           (File [x00; x68; x69] 1)); [reflexivity|].
  repeat constructor; discriminate.
Defined.

Lemma map_byte_nonzero (s : pystr) :
  Forall (fun c => (0 < c < 128)%N) s ->
  Forall (fun b => Z_of_byte b <> 0) (map (fun c => byte_of_Z (Z.of_N c)) s).
Proof.
  intros Hs. apply Forall_map. eapply Forall_impl; [exact Hs|].
  intros c Hc. simpl in *. rewrite Z_of_byte_of_Z; lia.
Qed.

Lemma map_chr_byte (s : pystr) :
  Forall (fun c => (c < 128)%N) s ->
  map chr (map (fun c => byte_of_Z (Z.of_N c)) s) = s.
Proof.
  induction 1 as [|c s Hc _ IH]; [reflexivity|].
  cbn [map]. rewrite chr_byte_of by lia. f_equal. exact IH.
Qed.

(** X11: [write('string', ...)] accepts a string with a NUL character in it
    and writes all of it, but [read('string', ...)] at the same place then
    returns only the part before the first NUL: such a string does not
    survive the round trip. *)
Theorem string_with_nul_is_cut (s1 s2 : pystr) (base offset : Z) (f : file) :
  Forall (fun c => (0 < c < 128)%N) s1 ->
  Forall (fun c => (c < 128)%N) s2 ->
  0 <= base + offset ->
  exists f1 f2,
    write "string" (PyStr (s1 ++ 0%N :: s2)) base offset "start" f
    = (Ok (Z.of_nat (length s1 + length s2) + 2), f1) /\
    read "string" base offset "start" f1 = (Ok (PyStr s1), f2).
Proof.
  intros Hs1 Hs2 Hpos.
  set (p := Z.to_nat (base + offset)).
  set (enc := map (fun c => byte_of_Z (Z.of_N c))).
  assert (Henc : encode_ascii (s1 ++ 0%N :: s2) = Ok (enc s1 ++ x00 :: enc s2)).
  { rewrite encode_ascii_ok.
    - subst enc. cbv beta. rewrite map_app. reflexivity.
    - apply Forall_app. split.
      + eapply Forall_impl; [exact Hs1|]. intros c Hc. simpl in Hc. lia.
      + constructor; [lia | exact Hs2]. }
  destruct (file_write_at ((enc s1 ++ x00 :: enc s2) ++ [x00]) (content f) p)
    as (c' & Hw & Hdrop & _).
  { destruct (enc s1); discriminate. }
  rewrite <- !app_assoc in Hdrop. cbn [app] in Hdrop.
  assert (Hlen : Z.of_nat (length ((enc s1 ++ x00 :: enc s2) ++ [x00]))
                 = Z.of_nat (length s1 + length s2) + 2).
  { subst enc. cbv beta.
    rewrite !length_app. cbn [length]. rewrite !length_map.
    unfold pystr, codepoint in *. lia. }
  eexists (File c' _), (File c' _).
  split.
  - rewrite write_string. unfold mbind, M_bind, lift.
    rewrite seek_start by exact Hpos.
    cbn [bytes_ascii]. rewrite Henc. fold p. rewrite Hw, Hlen. reflexivity.
  - assert (Hseek : seek (base + offset) "start" (File c' (p + length ((enc s1 ++ x00 :: enc s2) ++ [x00])))
                    = (Ok tt, File c' p)) by (apply seek_start, Hpos).
    rewrite read_string, (bind_ok _ _ _ _ _ Hseek).
    rewrite (_read_string_at c' (enc s1) _ p (map_byte_nonzero s1 Hs1) Hdrop).
    subst enc. cbv beta. rewrite map_chr_byte; [reflexivity|].
    eapply Forall_impl; [exact Hs1|]. intros c Hc. simpl in Hc. lia.
Qed.

Lemma string_with_nul_is_cut_witness :
  exists f1 f2,
    write "string" (PyStr ([97; 98] ++ 0 :: [99])%N) 0 0 "start" fresh
    = (Ok (Z.of_nat (length [97; 98]%N + length [99]%N) + 2), f1) /\
    read "string" 0 0 "start" f1 = (Ok (PyStr [97; 98]%N), f2).
Proof.
  apply (string_with_nul_is_cut [97; 98]%N [99]%N 0 0 fresh); [| |lia];
    repeat constructor.
Defined.

(** ** Several values in one file *)

Lemma write_keeps_slice (data c c' : list byte) (p p' q n : nat) (r : result Z) :
  data <> [] ->
  file_write data (File c p) = (r, File c' p') ->
  ((q + n <= p)%nat /\ (q + n <= length c)%nat) \/ (p + length data <= q)%nat ->
  take n (drop q c') = take n (drop q c).
Proof.
  intros Hne Hw Hdisj.
  destruct (file_write_lookup data c p Hne) as (c'' & Hw' & _ & Hl).
  rewrite Hw' in Hw. injection Hw as _ <- _.
  apply slice_eq_lookup. intros i Hi. rewrite Hl.
  destruct Hdisj as [[H1 H2]|H1].
  - destruct (decide (i < p)%nat); [|lia].
    destruct (decide (i < length c)%nat); [reflexivity | lia].
  - destruct (decide (i < p)%nat); [lia|].
    destruct (decide (i < p + length data)%nat); [lia | reflexivity].
Qed.

Lemma write_fixed_ok (type fmt : string) (c : Struct.format) (v : pyobj)
    (base offset : Z) (whence : string) (f : file) (c0 : list byte) (p0 : nat) :
  fixed_format type fmt c -> representable type v ->
  seek (base + offset) whence f = (Ok tt, File c0 p0) ->
  exists bs c',
    bs <> [] /\ length bs = Struct.calcsize c /\
    Struct.unpack fmt bs = Ok [v] /\
    write type v base offset whence f
    = (Ok (Z.of_nat (Struct.calcsize c)), File c' (p0 + Struct.calcsize c)) /\
    file_write bs (File c0 p0)
    = (Ok (Z.of_nat (Struct.calcsize c)), File c' (p0 + Struct.calcsize c)) /\
    take (Struct.calcsize c) (drop p0 c') = bs /\
    (p0 + Struct.calcsize c <= length c')%nat.
Proof.
  intros Hf Hv Hseek.
  destruct (unpack_pack type fmt c v Hf Hv) as (bs & Hpack & Hlen & Hunpack).
  assert (Hne : bs <> []).
  { pose proof (calcsize_pos c). destruct bs; [simpl in Hlen; lia | discriminate]. }
  destruct (file_write_lookup bs c0 p0 Hne) as (c' & Hw & Hl & _).
  destruct (file_write_at bs c0 p0 Hne) as (c'' & Hw' & Hdrop & _).
  rewrite Hw in Hw'. injection Hw' as <-.
  rewrite Hlen in *.
  exists bs, c'. repeat split; try assumption.
  - rewrite (write_fixed _ _ _ _ _ _ _ _ Hf), (bind_ok _ _ _ _ _ Hseek).
    unfold pack_to_file, lift, mbind, M_bind. rewrite Hpack. exact Hw.
  - rewrite Hdrop, <- Hlen. apply take_app_length.
  - lia.
Qed.

Lemma read_fixed_slice (type fmt : string) (c : Struct.format) (v : pyobj)
    (base offset : Z) (whence : string) (f f0 : file) :
  fixed_format type fmt c ->
  seek (base + offset) whence f = (Ok tt, f0) ->
  Struct.unpack fmt (take (Struct.calcsize c) (drop (pos f0) (content f)))
  = Ok [v] ->
  read type base offset whence f
  = (Ok v, File (content f) (pos f0 + Struct.calcsize c)).
Proof.
  intros Hf Hseek Hu.
  destruct (unpack_ok_inv _ _ _ _ (fixed_format_parse _ _ _ Hf) Hu) as [Hl _].
  rewrite (read_fixed_at _ _ _ _ _ _ _ _ Hf Hseek). cbv zeta.
  rewrite Hu, Hl. reflexivity.
Qed.

(** X12: two values written one after the other, the second with
    [whence='current'] and no offset, lie side by side and are read back the
    same way: the first by its position, the second with
    [whence='current']; the cursor ends after both. *)
Theorem sequential_write_read (t1 t2 : string) (v1 v2 : pyobj) (base : Z)
    (f : file) :
  representable t1 v1 -> representable t2 v2 -> 0 <= base ->
  exists n1 n2 g1 g2 g3 g4,
    write t1 v1 base 0 "start" f = (Ok n1, g1) /\
    write t2 v2 0 0 "current" g1 = (Ok n2, g2) /\
    read t1 base 0 "start" g2 = (Ok v1, g3) /\
    read t2 0 0 "current" g3 = (Ok v2, g4) /\
    primitive_size t1 = Ok n1 /\ primitive_size t2 = Ok n2 /\
    tell g4 = (Ok (base + n1 + n2), g4).
Proof.
  intros Hv1 Hv2 Hpos.
  destruct (representable_format t1 v1 Hv1) as (fmt1 & c1 & Hf1).
  destruct (representable_format t2 v2 Hv2) as (fmt2 & c2 & Hf2).
  set (p := Z.to_nat base).
  set (k1 := Struct.calcsize c1). set (k2 := Struct.calcsize c2).
  assert (Hs1 : forall g, seek (base + 0) "start" g = (Ok tt, File (content g) p)).
  { intros g. rewrite seek_start by lia. subst p. do 3 f_equal. lia. }
  destruct (write_fixed_ok t1 fmt1 c1 v1 base 0 "start" f _ _ Hf1 Hv1 (Hs1 f))
    as (bs1 & d1 & Hne1 & Hl1 & Hu1 & Hw1 & _ & Hsl1 & Hlen1).
  fold k1 in Hl1, Hw1, Hsl1, Hlen1.
  assert (Hs2 : seek (0 + 0) "current" (File d1 (p + k1))
                = (Ok tt, File d1 (p + k1))).
  { rewrite seek_current by (simpl; lia). cbn [content pos].
    do 3 f_equal. lia. }
  destruct (write_fixed_ok t2 fmt2 c2 v2 0 0 "current" _ _ _ Hf2 Hv2 Hs2)
    as (bs2 & d2 & Hne2 & Hl2 & Hu2 & Hw2 & Hfw2 & Hsl2 & Hlen2).
  fold k2 in Hl2, Hw2, Hfw2, Hsl2, Hlen2.
  assert (Hkeep : take k1 (drop p d2) = bs1).
  { rewrite <- Hsl1.
    apply (write_keeps_slice bs2 d1 d2 (p + k1) _ p k1 _ Hne2 Hfw2).
    left. lia. }
  exists (Z.of_nat k1), (Z.of_nat k2), (File d1 (p + k1)),
    (File d2 (p + k1 + k2)), (File d2 (p + k1)), (File d2 (p + k1 + k2)).
  split; [exact Hw1|]. split; [exact Hw2|].
  split; [|split; [|split; [|split]]].
  - pose proof (read_fixed_slice t1 fmt1 c1 v1 base 0 "start"
                  (File d2 (p + k1 + k2)) _ Hf1 (Hs1 _)) as Hr.
    cbn [content pos] in Hr. fold k1 in Hr. apply Hr.
    rewrite Hkeep. exact Hu1.
  - assert (Hs3 : seek (0 + 0) "current" (File d2 (p + k1))
                  = (Ok tt, File d2 (p + k1))).
    { rewrite seek_current by (simpl; lia). cbn [content pos].
      do 3 f_equal. lia. }
    pose proof (read_fixed_slice t2 fmt2 c2 v2 0 0 "current" _ _ Hf2 Hs3)
      as Hr.
    cbn [content pos] in Hr. fold k2 in Hr. apply Hr.
    rewrite Hsl2. exact Hu2.
  - exact (primitive_size_calcsize _ _ _ Hf1).
  - exact (primitive_size_calcsize _ _ _ Hf2).
  - unfold tell, file_tell. cbn [pos]. do 2 f_equal. lia.
Qed.

Lemma sequential_write_read_witness :
  exists n1 n2 g1 g2 g3 g4,
    write "ushort" (PyInt 258) 1 0 "start" fresh = (Ok n1, g1) /\
    write "char" (PyInt (-1)) 0 0 "current" g1 = (Ok n2, g2) /\
    read "ushort" 1 0 "start" g2 = (Ok (PyInt 258), g3) /\
    read "char" 0 0 "current" g3 = (Ok (PyInt (-1)), g4) /\
    primitive_size "ushort" = Ok n1 /\ primitive_size "char" = Ok n2 /\
    tell g4 = (Ok (1 + n1 + n2), g4).
Proof.
  apply (sequential_write_read "ushort" "char" (PyInt 258) (PyInt (-1)) 1 fresh);
    [| |lia].
  - apply (rep_int "ushort" 0 65535 258); [reflexivity | lia].
  - apply (rep_int "char" (-128) 127 (-1)); [reflexivity | lia].
Defined.

(** X13: two values written to ranges of the file that do not overlap do
    not disturb each other, whichever is written first and wherever they
    lie: both are read back. *)
Theorem disjoint_writes_both_read_back (t1 t2 : string) (v1 v2 : pyobj)
    (p1 p2 n1 n2 : Z) (f : file) :
  representable t1 v1 -> representable t2 v2 ->
  0 <= p1 -> 0 <= p2 ->
  primitive_size t1 = Ok n1 -> primitive_size t2 = Ok n2 ->
  p1 + n1 <= p2 \/ p2 + n2 <= p1 ->
  exists g1 g2 g3 g4,
    write t1 v1 p1 0 "start" f = (Ok n1, g1) /\
    write t2 v2 p2 0 "start" g1 = (Ok n2, g2) /\
    read t1 p1 0 "start" g2 = (Ok v1, g3) /\
    read t2 p2 0 "start" g3 = (Ok v2, g4).
Proof.
  intros Hv1 Hv2 Hp1 Hp2 Hn1 Hn2 Hdisj.
  destruct (representable_format t1 v1 Hv1) as (fmt1 & c1 & Hf1).
  destruct (representable_format t2 v2 Hv2) as (fmt2 & c2 & Hf2).
  rewrite (primitive_size_calcsize _ _ _ Hf1) in Hn1. injection Hn1 as <-.
  rewrite (primitive_size_calcsize _ _ _ Hf2) in Hn2. injection Hn2 as <-.
  set (q1 := Z.to_nat p1). set (q2 := Z.to_nat p2).
  set (k1 := Struct.calcsize c1) in *. set (k2 := Struct.calcsize c2) in *.
  assert (Hs1 : forall g, seek (p1 + 0) "start" g = (Ok tt, File (content g) q1)).
  { intros g. rewrite seek_start by lia. subst q1. do 3 f_equal. lia. }
  assert (Hs2 : forall g, seek (p2 + 0) "start" g = (Ok tt, File (content g) q2)).
  { intros g. rewrite seek_start by lia. subst q2. do 3 f_equal. lia. }
  destruct (write_fixed_ok t1 fmt1 c1 v1 p1 0 "start" f _ _ Hf1 Hv1 (Hs1 f))
    as (bs1 & d1 & Hne1 & Hl1 & Hu1 & Hw1 & _ & Hsl1 & Hlen1).
  fold k1 in Hl1, Hw1, Hsl1, Hlen1.
  destruct (write_fixed_ok t2 fmt2 c2 v2 p2 0 "start" (File d1 (q1 + k1)) _ _
              Hf2 Hv2 (Hs2 _))
    as (bs2 & d2 & Hne2 & Hl2 & Hu2 & Hw2 & Hfw2 & Hsl2 & Hlen2).
  fold k2 in Hl2, Hw2, Hfw2, Hsl2, Hlen2. cbn [content] in *.
  assert (Hkeep : take k1 (drop q1 d2) = bs1).
  { rewrite <- Hsl1.
    apply (write_keeps_slice bs2 d1 d2 q2 _ q1 k1 _ Hne2 Hfw2).
    subst q1 q2 k1 k2. lia. }
  exists (File d1 (q1 + k1)), (File d2 (q2 + k2)), (File d2 (q1 + k1)),
    (File d2 (q2 + k2)).
  split; [exact Hw1|]. split; [exact Hw2|]. split.
  - pose proof (read_fixed_slice t1 fmt1 c1 v1 p1 0 "start"
                  (File d2 (q2 + k2)) _ Hf1 (Hs1 _)) as Hr.
    cbn [content pos] in Hr. fold k1 in Hr. apply Hr.
    rewrite Hkeep. exact Hu1.
  - pose proof (read_fixed_slice t2 fmt2 c2 v2 p2 0 "start"
                  (File d2 (q1 + k1)) _ Hf2 (Hs2 _)) as Hr.
    cbn [content pos] in Hr. fold k2 in Hr. apply Hr.
    rewrite Hsl2. exact Hu2.
Qed.

Lemma disjoint_writes_both_read_back_witness :
  exists g1 g2 g3 g4,
    write "uint" (PyInt 7) 4 0 "start" fresh = (Ok 4, g1) /\
    write "short" (PyInt (-3)) 0 0 "start" g1 = (Ok 2, g2) /\
    read "uint" 4 0 "start" g2 = (Ok (PyInt 7), g3) /\
    read "short" 0 0 "start" g3 = (Ok (PyInt (-3)), g4).
Proof.
  apply (disjoint_writes_both_read_back "uint" "short" (PyInt 7) (PyInt (-3))
           4 0 4 2 fresh);
    [| | lia | lia | reflexivity | reflexivity | lia].
  - apply (rep_int "uint" 0 4294967295 7); [reflexivity | lia].
  - apply (rep_int "short" (-32768) 32767 (-3)); [reflexivity | lia].
Defined.

(** X14: reading a chunk in two pieces, the second with
    [whence='current'], gives the same bytes, in order, as reading it in
    one piece, and leaves the cursor at the same place, at the end of the
    file too. *)
Theorem read_chunk_in_pieces (offset n m : Z) (f : file) :
  0 <= offset -> 0 <= n -> 0 <= m ->
  exists d1 d2 g1 g2,
    read_chunk offset n "start" f = (Ok d1, g1) /\
    read_chunk 0 m "current" g1 = (Ok d2, g2) /\
    read_chunk offset (n + m) "start" f = (Ok (d1 ++ d2), g2).
Proof.
  intros Ho Hn Hm. set (p := Z.to_nat offset).
  set (c := content f).
  set (d1 := take (Z.to_nat n) (drop p c)).
  set (d2 := take (Z.to_nat m) (drop (p + length d1) c)).
  assert (Hcat : take (Z.to_nat (n + m)) (drop p c) = d1 ++ d2).
  { subst d1 d2. rewrite Z2Nat.inj_add by lia.
    rewrite <- take_take_drop. f_equal.
    rewrite length_take, length_drop.
    destruct (decide (Z.to_nat n <= length c - p)%nat) as [Hle|Hgt].
    - rewrite Nat.min_l by lia. rewrite drop_drop. reflexivity.
    - rewrite Nat.min_r by lia. rewrite drop_drop.
      rewrite !drop_ge by (rewrite ?length_drop; lia).
      reflexivity. }
  exists d1, d2, (File c (p + length d1)), (File c (p + length d1 + length d2)).
  split; [|split].
  - unfold read_chunk. rewrite (bind_ok _ _ _ _ _ (seek_start offset f Ho)).
    rewrite file_read_nonneg by lia. reflexivity.
  - unfold read_chunk.
    assert (Hs : seek 0 "current" (File c (p + length d1))
                 = (Ok tt, File c (p + length d1))).
    { rewrite seek_current by (simpl; lia). cbn [content pos].
      do 3 f_equal. lia. }
    rewrite (bind_ok _ _ _ _ _ Hs). rewrite file_read_nonneg by lia.
    reflexivity.
  - unfold read_chunk. rewrite (bind_ok _ _ _ _ _ (seek_start offset f Ho)).
    rewrite file_read_nonneg by lia. cbn [content pos]. fold p c.
    rewrite Hcat, length_app. do 2 f_equal. lia.
Qed.

Lemma read_chunk_in_pieces_witness :
  exists d1 d2 g1 g2,
    read_chunk 1 2 "start" (File [x01; x02; x03; x04] 0) = (Ok d1, g1) /\
    read_chunk 0 3 "current" g1 = (Ok d2, g2) /\
    read_chunk 1 (2 + 3) "start" (File [x01; x02; x03; x04] 0)
    = (Ok (d1 ++ d2), g2).
Proof.
  apply (read_chunk_in_pieces 1 2 3 (File [x01; x02; x03; x04] 0)); lia.
Defined.

(** ** Positions *)

Lemma seek_current_start (offset : Z) (f : file) :
  seek offset "current" f = seek (Z.of_nat (pos f) + offset) "start" f.
Proof. reflexivity. Qed.

Lemma bind_seek_ext {A : Type} (k : unit -> M A) (o1 o2 : Z) (w1 w2 : string)
    (f : file) :
  seek o1 w1 f = seek o2 w2 f ->
  (seek o1 w1 ≫= k) f = (seek o2 w2 ≫= k) f.
Proof. intros H. unfold mbind, M_bind. rewrite H. reflexivity. Qed.

(** X15: a position that the seek refuses makes every operation raise what
    the seek raises, with the file untouched (cursor and content):
    [ValueError] for a [whence] other than ['start'] and ['current'],
    [OSError] for a position before the start of the file. *)
Theorem bad_position_is_rejected (type : string) (data : pyobj)
    (chunk : list byte) (base offset size : Z) (whence : string) (f : file) :
  (whence <> "start" /\ whence <> "current") \/
  (whence = "start" /\ base + offset < 0) \/
  (whence = "current" /\ Z.of_nat (pos f) + (base + offset) < 0) ->
  let e := if decide (whence = "start" \/ whence = "current") then OSError
           else ValueError ("Invalid value for `whence`: " +:+ whence) in
  read type base offset whence f = (Raise e, f) /\
  write type data base offset whence f = (Raise e, f) /\
  read_chunk (base + offset) size whence f = (Raise e, f) /\
  write_chunk chunk (base + offset) whence f = (Raise e, f).
Proof.
  intros H e.
  assert (Hseek : seek (base + offset) whence f = (Raise e, f)).
  { subst e. destruct H as [[H1 H2]|[[-> H1]|[-> H1]]].
    - destruct (decide (whence = "start" \/ whence = "current")); [tauto|].
      apply seek_bad_whence; assumption.
    - destruct (decide ("start" = "start" \/ "start" = "current")); [|tauto].
      apply seek_start_negative, H1.
    - destruct (decide ("current" = "start" \/ "current" = "current")); [|tauto].
      apply seek_current_negative, H1. }
  repeat split.
  - apply (read_seek_raises type _ _ _ _ _ _ Hseek).
  - apply (write_seek_raises type data _ _ _ _ _ _ Hseek).
  - unfold read_chunk. apply bind_raise, Hseek.
  - unfold write_chunk. apply bind_raise, Hseek.
Qed.

Lemma bad_position_is_rejected_witness :
  let e := if decide ("current" = "start" \/ "current" = "current") then OSError
           else ValueError ("Invalid value for `whence`: " +:+ "current") in
  read "uint" (-4) 0 "current" (File [x01; x02] 2) = (Raise e, File [x01; x02] 2) /\
  write "uint" (PyInt 1) (-4) 0 "current" (File [x01; x02] 2)
  = (Raise e, File [x01; x02] 2) /\
  read_chunk (-4 + 0) 1 "current" (File [x01; x02] 2)
  = (Raise e, File [x01; x02] 2) /\
  write_chunk [x0a] (-4 + 0) "current" (File [x01; x02] 2)
  = (Raise e, File [x01; x02] 2).
Proof.
  apply (bad_position_is_rejected "uint" (PyInt 1) [x0a] (-4) 0 1 "current"
           (File [x01; x02] 2)).
  right. right. split; [reflexivity | simpl; lia].
Defined.

(** [whence='current'] is [whence='start'] shifted by the cursor, for
    every operation and every argument, refused positions included. *)
Lemma current_is_start_from_cursor (type : string) (data : pyobj)
    (chunk : list byte) (base offset size : Z) (f : file) :
  read type base offset "current" f
  = read type (Z.of_nat (pos f) + base) offset "start" f /\
  write type data base offset "current" f
  = write type data (Z.of_nat (pos f) + base) offset "start" f /\
  read_chunk offset size "current" f
  = read_chunk (Z.of_nat (pos f) + offset) size "start" f /\
  write_chunk chunk offset "current" f
  = write_chunk chunk (Z.of_nat (pos f) + offset) "start" f.
Proof.
  assert (H : seek (base + offset) "current" f
              = seek (Z.of_nat (pos f) + base + offset) "start" f).
  { rewrite seek_current_start. f_equal. lia. }
  split; [|split; [|split]].
  - unfold read. apply bind_seek_ext, H.
  - unfold write. apply bind_seek_ext, H.
  - unfold read_chunk. apply bind_seek_ext, seek_current_start.
  - unfold write_chunk. apply bind_seek_ext, seek_current_start.
Qed.

(** ** Byte order and sign *)

Lemma unpack_unsigned (fmt : string) (c : Struct.format) (bs : list byte) :
  Struct.parse fmt = Some c -> Struct.is_integer c = true ->
  Struct.is_signed c = false -> length bs = Struct.calcsize c ->
  Struct.unpack fmt bs = Ok [PyInt (be_value bs)].
Proof.
  intros Hp Hi Hs Hl. unfold Struct.unpack.
  rewrite Hp, Hl, Nat.eqb_refl, Hs. cbn [negb andb].
  destruct c; try discriminate Hi; try discriminate Hs; reflexivity.
Qed.

Lemma unpack_signed (fmt : string) (c : Struct.format) (bs : list byte) :
  Struct.parse fmt = Some c -> Struct.is_signed c = true ->
  length bs = Struct.calcsize c ->
  Struct.unpack fmt bs
  = Ok [PyInt (if 2 ^ (8 * Z.of_nat (Struct.calcsize c) - 1) <=? be_value bs
               then be_value bs - 2 ^ (8 * Z.of_nat (Struct.calcsize c))
               else be_value bs)].
Proof.
  intros Hp Hs Hl. unfold Struct.unpack.
  rewrite Hp, Hl, Nat.eqb_refl, Hs. cbn [negb andb].
  destruct c; try discriminate Hs;
    match goal with |- context [if ?b then _ else _] => destruct b end;
    reflexivity.
Qed.

Lemma unpack_unsigned_inv (fmt : string) (c : Struct.format) (bs : list byte)
    (v : pyobj) :
  Struct.parse fmt = Some c -> Struct.is_integer c = true ->
  Struct.is_signed c = false -> Struct.unpack fmt bs = Ok [v] ->
  length bs = Struct.calcsize c /\ v = PyInt (be_value bs).
Proof.
  intros Hp Hi Hs Hu.
  destruct (unpack_ok_inv _ _ _ _ Hp Hu) as [Hl _].
  rewrite (unpack_unsigned _ _ _ Hp Hi Hs Hl) in Hu.
  injection Hu as <-. split; [exact Hl | reflexivity].
Qed.

(** X16: the byte order is big-endian in every file: the value that
    ['ushort'] reads is 256 times the ['uchar'] at the same place plus the
    ['uchar'] that follows it, and the value that ['uint'] reads is 65536
    times the ['ushort'] at the same place plus the ['ushort'] that follows;
    reading the two halves one after the other (the second with
    [whence='current']) leaves the cursor where the wide read leaves it. *)
Theorem wide_read_is_two_narrow_reads (wide narrow : string) (k : Z)
    (base offset : Z) (whence : string) (f f1 : file) (v : pyobj) :
  (wide = "ushort" /\ narrow = "uchar" /\ k = 256) \/
  (wide = "uint" /\ narrow = "ushort" /\ k = 65536) ->
  read wide base offset whence f = (Ok v, f1) ->
  exists hi lo g,
    read narrow base offset whence f = (Ok (PyInt hi), g) /\
    read narrow 0 0 "current" g = (Ok (PyInt lo), f1) /\
    v = PyInt (k * hi + lo).
Proof.
  intros Hcase Hread.
  assert (Hgen : forall fmtw cw fmtn cn,
    fixed_format wide fmtw cw -> fixed_format narrow fmtn cn ->
    Struct.is_integer cw = true -> Struct.is_signed cw = false ->
    Struct.is_integer cn = true -> Struct.is_signed cn = false ->
    Struct.calcsize cw = (Struct.calcsize cn + Struct.calcsize cn)%nat ->
    k = 256 ^ Z.of_nat (Struct.calcsize cn) ->
    exists hi lo g,
      read narrow base offset whence f = (Ok (PyInt hi), g) /\
      read narrow 0 0 "current" g = (Ok (PyInt lo), f1) /\
      v = PyInt (k * hi + lo)).
  { intros fmtw cw fmtn cn Hfw Hfn Hiw Hsw Hin Hsn Hsize Hk.
    destruct (read_fixed_ok_inv _ _ _ _ _ _ _ _ _ Hfw Hread)
      as (f0 & Hseek & Hl & Hu & ->).
    destruct (seek_ok_inv _ _ _ _ Hseek) as [Hc _].
    destruct f0 as [c0 p0]. cbn [content pos] in *. subst c0.
    set (c := content f) in *. set (n := Struct.calcsize cn) in *.
    rewrite Hsize in Hl, Hu.
    destruct (unpack_unsigned_inv _ _ _ _ (fixed_format_parse _ _ _ Hfw)
                Hiw Hsw Hu) as [_ ->].
    assert (Hlen : (p0 + (n + n) <= length c)%nat).
    { pose proof (calcsize_pos cn). rewrite length_take, length_drop in Hl.
      subst n. lia. }
    set (bhi := take n (drop p0 c)). set (blo := take n (drop (p0 + n) c)).
    assert (Hsplit : take (n + n) (drop p0 c) = bhi ++ blo).
    { subst bhi blo. rewrite <- take_take_drop, drop_drop. reflexivity. }
    assert (Hlhi : length bhi = n)
      by (subst bhi; rewrite length_take, length_drop; lia).
    assert (Hllo : length blo = n)
      by (subst blo; rewrite length_take, length_drop; lia).
    exists (be_value bhi), (be_value blo), (File c (p0 + n)).
    split; [|split].
    - pose proof (read_fixed_slice narrow fmtn cn (PyInt (be_value bhi))
                    base offset whence f _ Hfn Hseek) as Hr.
      cbn [content pos] in Hr. apply Hr.
      apply (unpack_unsigned fmtn cn);
        [apply (fixed_format_parse _ _ _ Hfn) | assumption..].
    - assert (Hs : seek (0 + 0) "current" (File c (p0 + n))
                   = (Ok tt, File c (p0 + n))).
      { rewrite seek_current by (simpl; lia). cbn [content pos].
        do 3 f_equal. lia. }
      pose proof (read_fixed_slice narrow fmtn cn (PyInt (be_value blo))
                    0 0 "current" _ _ Hfn Hs) as Hr.
      cbn [content pos] in Hr. fold n in Hr.
      replace (p0 + n + n)%nat with (p0 + (n + n))%nat in Hr by lia.
      rewrite Hsize. apply Hr.
      apply (unpack_unsigned fmtn cn);
        [apply (fixed_format_parse _ _ _ Hfn) | assumption..].
    - rewrite Hsplit, be_value_app, Hllo, Hk. f_equal. lia. }
  destruct Hcase as [(-> & -> & ->)|(-> & -> & ->)].
  - apply (Hgen ">H" Struct.fH ">B" Struct.fB); try reflexivity; constructor.
  - apply (Hgen ">I" Struct.fI ">H" Struct.fH); try reflexivity; constructor.
Qed.

Lemma wide_read_is_two_narrow_reads_witness :
  exists hi lo g,
    read "ushort" 0 0 "start" (File [x01; x02; x03; x04] 0) = (Ok (PyInt hi), g) /\
    read "ushort" 0 0 "current" g
    = (Ok (PyInt lo), File [x01; x02; x03; x04] 4) /\
    PyInt 16909060 = PyInt (65536 * hi + lo).
Proof.
  apply (wide_read_is_two_narrow_reads "uint" "ushort" 65536 0 0 "start"
           (File [x01; x02; x03; x04] 0) (File [x01; x02; x03; x04] 4)
           (PyInt 16909060)).
  - right. repeat split.
  - reflexivity.
Defined.

(** X17: a signed descriptor reads the two's complement of what the
    unsigned descriptor of the same width reads at the same place: ['char']
    against ['uchar'], ['short'] against ['ushort'], ['int'] against
    ['uint']. *)
Theorem signed_read_is_twos_complement (signed unsigned : string) (half : Z)
    (base offset : Z) (whence : string) (f f1 : file) (v : pyobj) :
  (signed = "char" /\ unsigned = "uchar" /\ half = 128) \/
  (signed = "short" /\ unsigned = "ushort" /\ half = 32768) \/
  (signed = "int" /\ unsigned = "uint" /\ half = 2147483648) ->
  read unsigned base offset whence f = (Ok v, f1) ->
  exists u,
    v = PyInt u /\ 0 <= u < 2 * half /\
    read signed base offset whence f
    = (Ok (PyInt (if half <=? u then u - 2 * half else u)), f1).
Proof.
  intros Hcase Hread.
  assert (Hgen : forall fmtu cu fmts cs,
    fixed_format unsigned fmtu cu -> fixed_format signed fmts cs ->
    Struct.is_integer cu = true -> Struct.is_signed cu = false ->
    Struct.is_signed cs = true ->
    Struct.calcsize cs = Struct.calcsize cu ->
    half = 2 ^ (8 * Z.of_nat (Struct.calcsize cs) - 1) ->
    2 * half = 2 ^ (8 * Z.of_nat (Struct.calcsize cs)) ->
    exists u,
      v = PyInt u /\ 0 <= u < 2 * half /\
      read signed base offset whence f
      = (Ok (PyInt (if half <=? u then u - 2 * half else u)), f1)).
  { intros fmtu cu fmts cs Hfu Hfs Hiu Hsu Hss Hsize Hh H2h.
    destruct (read_fixed_ok_inv _ _ _ _ _ _ _ _ _ Hfu Hread)
      as (f0 & Hseek & Hl & Hu & ->).
    destruct (unpack_unsigned_inv _ _ _ _ (fixed_format_parse _ _ _ Hfu)
                Hiu Hsu Hu) as [_ ->].
    set (bs := take (Struct.calcsize cu) (drop (pos f0) (content f))) in *.
    exists (be_value bs). split; [reflexivity|]. split.
    - pose proof (be_value_range bs) as Hr.
      rewrite Hl, <- Hsize, pow_256, <- H2h in Hr. exact Hr.
    - pose proof (read_fixed_slice signed fmts cs
                    (PyInt (if half <=? be_value bs
                            then be_value bs - 2 * half else be_value bs))
                    base offset whence f f0 Hfs Hseek) as Hr.
      rewrite Hsize in Hr. apply Hr. fold bs.
      rewrite (unpack_signed _ _ _ (fixed_format_parse _ _ _ Hfs) Hss)
        by (rewrite Hsize; exact Hl).
      rewrite <- Hh, <- H2h. reflexivity. }
  destruct Hcase as [(-> & -> & ->)|[(-> & -> & ->)|(-> & -> & ->)]].
  - apply (Hgen ">B" Struct.fB ">b" Struct.fb); try reflexivity; constructor.
  - apply (Hgen ">H" Struct.fH ">h" Struct.fh); try reflexivity; constructor.
  - apply (Hgen ">I" Struct.fI ">i" Struct.fi); try reflexivity; constructor.
Qed.

Lemma signed_read_is_twos_complement_witness :
  exists u,
    PyInt 65534 = PyInt u /\ 0 <= u < 2 * 32768 /\
    read "short" 1 0 "start" (File [x00; xff; xfe] 0)
    = (Ok (PyInt (if 32768 <=? u then u - 2 * 32768 else u)),
       File [x00; xff; xfe] 3).
Proof.
  apply (signed_read_is_twos_complement "short" "ushort" 32768 1 0 "start"
           (File [x00; xff; xfe] 0) (File [x00; xff; xfe] 3) (PyInt 65534)).
  - right. left. repeat split.
  - reflexivity.
Defined.

(** ** Integers written as floats *)

Lemma Zpos_iter_xO (m p : positive) :
  Z.pos (Pos.iter xO m p) = Z.pos m * 2 ^ Z.pos p.
Proof.
  induction p as [|p IH] using Pos.peano_ind.
  - simpl. lia.
  - rewrite Pos.iter_succ, Pos2Z.inj_succ, Z.pow_succ_r by lia.
    change (Z.pos (Pos.iter xO m p)~0) with (2 * Z.pos (Pos.iter xO m p)).
    rewrite IH. lia.
Qed.

Lemma Zpos_widen_mantissa (prec2 : Z) (m : positive) :
  0 <= widen_shift prec2 m ->
  Z.pos (widen_mantissa prec2 m) = Z.pos m * 2 ^ widen_shift prec2 m.
Proof.
  unfold widen_mantissa. destruct (widen_shift prec2 m) as [|p|p]; intros H.
  - simpl. lia.
  - apply Zpos_iter_xO.
  - lia.
Qed.

(** A positive integer below [2 ^ prec], as a float of precision [prec]:
    the mantissa shifted up to [prec] digits. *)
Section SmallInt.
Variables prec emax : Z.
Hypothesis Hprec : 0 < prec.
Hypothesis Hemax : 2 * prec <= emax.

Lemma binary_round_small_int (s : bool) (m : positive) :
  Z.pos m < 2 ^ prec ->
  binary_round prec emax s m 0
  = S754_finite s (widen_mantissa prec m) (- widen_shift prec m) /\
  bounded prec emax (widen_mantissa prec m) (- widen_shift prec m) = true /\
  0 <= widen_shift prec m /\
  Z.pos (digits2_pos (widen_mantissa prec m)) = prec.
Proof.
  intros Hm. pose proof (digits2_pos_bounds m) as [Hlo _].
  set (d := Z.pos (digits2_pos m)) in *.
  assert (Hd : 0 < d <= prec).
  { split; [subst d; lia|].
    assert (d - 1 < prec) by (apply (Z.pow_lt_mono_r_iff 2); lia). lia. }
  assert (Hb : bounded d (d + 1) m 0 = true).
  { unfold bounded, canonical_mantissa, fexp, emin. fold d.
    apply andb_true_intro. split; [apply Z.eqb_eq | apply Z.leb_le]; lia. }
  assert (H1 : 0 < d <= prec) by lia.
  assert (H2 : d + 1 <= emax) by lia.
  assert (H3 : emin prec emax <= emin d (d + 1) + 1 - prec)
    by (unfold emin; lia).
  pose proof (binary_round_widen d (d + 1) prec emax H1 H2 H3 s m 0 Hb) as Hr.
  destruct (widen_facts d (d + 1) prec emax H1 H2 H3 m 0 Hb)
    as (Hk & _ & Hdig & _ & _ & Hb2).
  rewrite Z.sub_0_l in Hr, Hb2. repeat split; assumption.
Qed.
End SmallInt.

Lemma float_equals_small_int (prec : Z) (z : Z) (m : positive) (s : bool) :
  0 <= widen_shift prec m -> z = cond_Zopp s (Z.pos m) ->
  float_equals_int
    (S754_finite s (widen_mantissa prec m) (- widen_shift prec m)) z.
Proof.
  intros Hk ->. cbn [float_equals_int]. split; [lia|].
  rewrite Z.opp_involutive, (Zpos_widen_mantissa prec m Hk).
  destruct s; cbn [cond_Zopp]; lia.
Qed.

(** An integer below the precision of the format, as the Python float
    that [struct] converts it to: the descriptor represents it exactly and
    its value is the integer. *)
Lemma small_int_float (type : string) (bound : Z) (s : bool) (m : positive) :
  (type = "float" /\ bound = 2 ^ 24) \/ (type = "double" /\ bound = 2 ^ 53) ->
  Z.pos m < bound ->
  exists x,
    binary_round 53 1024 s m 0 = x /\ is_inf x = false /\
    representable type (PyFloat x) /\
    float_equals_int x (cond_Zopp s (Z.pos m)) /\ is_float 52 11 x = true.
Proof.
  intros Hcase Hm.
  assert (Hm53 : Z.pos m < 2 ^ 53) by (destruct Hcase as [[_ ->]|[_ ->]]; lia).
  destruct (binary_round_small_int 53 1024 ltac:(lia) ltac:(lia) s m Hm53)
    as (Hr & Hb & Hk & _).
  set (x := S754_finite s (widen_mantissa 53 m) (- widen_shift 53 m)) in *.
  exists x. split; [exact Hr|]. split; [reflexivity|].
  split; [|split; [apply float_equals_small_int; [exact Hk | reflexivity]
                  | exact Hb]].
  destruct Hcase as [[-> ->]|[-> _]]; [|apply rep_double; [exact Hb | reflexivity]].
  destruct (binary_round_small_int 24 128 ltac:(lia) ltac:(lia) s m Hm)
    as (_ & Hb24 & Hk24 & Hd24).
  set (y := S754_finite s (widen_mantissa 24 m) (- widen_shift 24 m)).
  replace x with (convert 52 11 y);
    [apply rep_float; [exact Hb24 | reflexivity]|].
  subst x y. unfold convert. change (fprec 52) with 53.
  change (femax 11) with 1024. rewrite binary_normalize_sign.
  assert (H1 : 0 < 24 <= 53) by lia.
  assert (H2 : 128 <= 1024) by lia.
  assert (H3 : emin 53 1024 <= emin 24 128 + 1 - 53) by (unfold emin; lia).
  rewrite (binary_round_widen 24 128 53 1024 H1 H2 H3 s _ _ Hb24).
  destruct (widen_facts 24 128 53 1024 H1 H2 H3 _ _ Hb24) as (Hk' & _).
  cbv zeta in Hk'.
  assert (Hsh : widen_shift 53 (widen_mantissa 24 m)
                = widen_shift 53 m - widen_shift 24 m).
  { unfold widen_shift at 1. rewrite Hd24. unfold widen_shift. lia. }
  f_equal.
  - apply Pos2Z.inj.
    rewrite (Zpos_widen_mantissa 53 _ Hk'), (Zpos_widen_mantissa 24 m Hk24),
      (Zpos_widen_mantissa 53 m Hk), Hsh.
    rewrite <- Z.mul_assoc, <- Z.pow_add_r by lia. do 2 f_equal. lia.
  - rewrite Hsh. lia.
Qed.

Lemma as_double_small_int (type : string) (bound z : Z) :
  (type = "float" /\ bound = 2 ^ 24) \/ (type = "double" /\ bound = 2 ^ 53) ->
  - bound < z < bound ->
  exists x,
    Struct.as_double (PyInt z) = Ok x /\ representable type (PyFloat x) /\
    float_equals_int x z /\ is_float 52 11 x = true.
Proof.
  intros Hcase Hz. unfold Struct.as_double.
  change (fprec 52) with 53. change (femax 11) with 1024.
  destruct z as [|m|m]; cbn [binary_normalize].
  - exists (S754_zero false). split; [reflexivity|].
    split; [|split; reflexivity].
    destruct Hcase as [[-> _]|[-> _]].
    + apply (rep_float (S754_zero false)); reflexivity.
    + apply rep_double; reflexivity.
  - destruct (small_int_float type bound false m Hcase ltac:(lia))
      as (x & -> & Hinf & Hrep & Heq & Hv).
    exists x. rewrite Hinf. repeat split; assumption.
  - destruct (small_int_float type bound true m Hcase ltac:(lia))
      as (x & -> & Hinf & Hrep & Heq & Hv).
    exists x. rewrite Hinf. repeat split; assumption.
Qed.

Lemma write_then_read_bytes (type fmt : string) (c : Struct.format)
    (data v : pyobj) (bs : list byte) (base offset : Z) (f : file) :
  fixed_format type fmt c ->
  Struct.pack fmt data = Ok bs -> Struct.unpack fmt bs = Ok [v] ->
  0 <= base + offset ->
  exists f1 f2,
    write type data base offset "start" f
    = (Ok (Z.of_nat (Struct.calcsize c)), f1) /\
    read type base offset "start" f1 = (Ok v, f2).
Proof.
  intros Hf Hpack Hunpack Hpos.
  pose proof (fixed_format_parse _ _ _ Hf) as Hp.
  pose proof (pack_length _ _ _ _ Hp Hpack) as Hlen.
  set (p := Z.to_nat (base + offset)).
  destruct (file_write_at bs (content f) p) as (c' & Hw & Hdrop & _).
  { pose proof (calcsize_pos c). destruct bs; [simpl in Hlen; lia | discriminate]. }
  exists (File c' (p + length bs)), (File c' (p + length bs)).
  split.
  - rewrite (write_fixed _ _ _ _ _ _ _ _ Hf).
    unfold pack_to_file, lift, mbind, M_bind.
    rewrite seek_start by exact Hpos. rewrite Hpack. fold p. rewrite Hw, Hlen.
    reflexivity.
  - rewrite (read_fixed _ _ _ _ _ _ _ Hf).
    unfold unpack_from_file, lift, mbind, M_bind.
    rewrite seek_start by exact Hpos. cbn [content]. fold p.
    rewrite <- Hlen, (read_back bs c' _ p Hdrop), Hunpack. reflexivity.
Qed.

(** X18: an integer passed to [write] for ['float'] or ['double'] is stored
    exactly when it is below the precision of the format in magnitude
    ([2 ^ 24] for ['float'], [2 ^ 53] for ['double']): [read] at the same
    place returns a Python float whose value is that integer. *)
Theorem small_int_as_float_roundtrip (type : string) (bound z base offset : Z)
    (f : file) :
  (type = "float" /\ bound = 2 ^ 24) \/ (type = "double" /\ bound = 2 ^ 53) ->
  - bound < z < bound ->
  0 <= base + offset ->
  exists x n f1 f2,
    write type (PyInt z) base offset "start" f = (Ok n, f1) /\
    read type base offset "start" f1 = (Ok (PyFloat x), f2) /\
    float_equals_int x z /\ is_float 52 11 x = true.
Proof.
  intros Hcase Hz Hpos.
  destruct (as_double_small_int type bound z Hcase Hz)
    as (x & Has & Hrep & Heq & Hv).
  destruct (representable_format _ _ Hrep) as (fmt & c & Hf).
  destruct (unpack_pack type fmt c (PyFloat x) Hf Hrep)
    as (bs & Hpack & _ & Hunpack).
  assert (Hpack' : Struct.pack fmt (PyInt z) = Ok bs).
  { revert Hpack.
    destruct Hcase as [[-> _]|[-> _]]; inversion Hf; subst;
      unfold Struct.pack; simpl Struct.parse; rewrite Has;
      cbn [Struct.as_double];
      try (destruct (is_inf (convert 23 8 x) && negb (is_inf x));
           [discriminate|]);
      intros H; exact H. }
  destruct (write_then_read_bytes type fmt c (PyInt z) (PyFloat x) bs
              base offset f Hf Hpack' Hunpack Hpos) as (f1 & f2 & Hw & Hr).
  exists x, (Z.of_nat (Struct.calcsize c)), f1, f2.
  repeat split; assumption.
Qed.

Lemma small_int_as_float_roundtrip_witness :
  exists x n f1 f2,
    write "float" (PyInt (-5)) 0 0 "start" fresh = (Ok n, f1) /\
    read "float" 0 0 "start" f1 = (Ok (PyFloat x), f2) /\
    float_equals_int x (-5) /\ is_float 52 11 x = true.
Proof.
  apply (small_int_as_float_roundtrip "float" (2 ^ 24) (-5) 0 0 fresh);
    [left; split; reflexivity | lia | lia].
Defined.

Example int_above_float_precision :
  read "float" 0 0 "start"
    (snd (write "float" (PyInt 16777217) 0 0 "start" fresh))
  = (Ok (PyFloat (S754_finite false 4503599627370496 (-28))),
     File [x4b; x80; x00; x00] 4).
Proof. vm_compute. reflexivity. Qed.

(** ** Floats too large for binary32 *)

Lemma shr_1_m (r : shr_record) :
  0 <= shr_m r -> shr_m (shr_1 r) = shr_m r / 2 /\ 0 <= shr_m (shr_1 r).
Proof.
  destruct r as [m r s]. cbn [shr_m]. intros Hm.
  destruct m as [|[p|p|]|p]; cbn [shr_1 shr_m]; [| | | |lia].
  - split; [reflexivity | lia].
  - change (Z.pos p~1) with (2 * Z.pos p + 1).
    split; [|lia]. apply (Z.div_unique _ _ _ 1); lia.
  - change (Z.pos p~0) with (2 * Z.pos p).
    split; [|lia]. apply (Z.div_unique _ _ _ 0); lia.
  - split; [reflexivity | lia].
Qed.

Lemma shr_iter_m (p : positive) (r : shr_record) :
  0 <= shr_m r ->
  shr_m (SpecFloat.iter_pos shr_1 p r) = shr_m r / 2 ^ Z.pos p /\
  0 <= shr_m (SpecFloat.iter_pos shr_1 p r).
Proof.
  rewrite iter_pos_iter. intros Hm.
  induction p as [|p IH] using Pos.peano_ind.
  - cbn [Pos.iter]. change (2 ^ 1) with 2. apply shr_1_m, Hm.
  - rewrite Pos.iter_succ. destruct IH as [IH1 IH2].
    destruct (shr_1_m _ IH2) as [H1 H2]. split; [|exact H2].
    rewrite H1, IH1, Pos2Z.inj_succ, Z.pow_succ_r by lia.
    rewrite Z.div_div by (try apply Z.pow_pos_nonneg; lia).
    f_equal. lia.
Qed.

Lemma round_nearest_even_range (m : Z) (l : location) :
  m <= round_nearest_even m l <= m + 1.
Proof.
  destruct l as [|[| |]]; cbn [round_nearest_even]; try lia.
  destruct (Z.even m); lia.
Qed.

(** A binary64 number of magnitude [2 ^ 128] or more becomes an infinity
    when it is converted to binary32. *)
Lemma convert_overflow (s : bool) (m : positive) (e : Z) :
  bounded 53 1024 m e = true -> 2 ^ 128 <= Z.pos m * 2 ^ e ->
  convert 23 8 (S754_finite s m e) = S754_infinity s.
Proof.
  intros Hb Hbig.
  destruct (bounded_inv 52 11 ltac:(lia) ltac:(lia) m e Hb) as [He Hm].
  change (femin 52 11) with (-1074) in *. change (femax 11) with 1024 in *.
  change (fprec 52) with 53 in *.
  assert (He0 : 0 <= e).
  { destruct (Z.lt_ge_cases e 0) as [Hneg|]; [|assumption].
    rewrite (Z.pow_neg_r 2 e Hneg) in Hbig. lia. }
  destruct Hm as [[Hlo Hhi]|[_ ->]]; [|lia].
  change (2 * 2 ^ 52) with (2 ^ 53) in Hhi.
  assert (He76 : 76 <= e).
  { destruct (Z.lt_ge_cases e 76) as [Hlt|]; [|assumption].
    assert (2 ^ e <= 2 ^ 75) by (apply Z.pow_le_mono_r; lia).
    assert (0 < 2 ^ e) by (apply Z.pow_pos_nonneg; lia).
    change (2 ^ 128) with (2 ^ 53 * 2 ^ 75) in Hbig. nia. }
  assert (Hd : Z.pos (digits2_pos m) = 53).
  { apply digits2_pos_unique; [|lia]. change (53 - 1) with 52. lia. }
  unfold convert. change (fprec 23) with 24. change (femax 8) with 128.
  rewrite binary_normalize_sign. unfold binary_round.
  rewrite Hd.
  assert (Hf1 : fexp 24 128 (53 + e) = e + 29) by (unfold fexp, emin; lia).
  rewrite Hf1.
  replace (e + 29) with (e - (-29)) at 1 by lia.
  assert (Hal : shl_align m e (e + 29) = (m, e)).
  { unfold shl_align. replace (e + 29 - e) with 29 by lia. reflexivity. }
  replace (e - -29) with (e + 29) by lia. rewrite Hal.
  unfold binary_round_aux.
  assert (Hs1 : shr_fexp 24 128 (Z.pos m) e loc_Exact
    = (SpecFloat.iter_pos shr_1 29 (Build_shr_record (Z.pos m) false false),
       e + 29)).
  { unfold shr_fexp. cbn [Zdigits2 shr_record_of_loc]. rewrite Hd, Hf1.
    replace (e + 29 - e) with 29 by lia. reflexivity. }
  rewrite Hs1.
  set (r1 := SpecFloat.iter_pos shr_1 29 (Build_shr_record (Z.pos m) false false)).
  destruct (shr_iter_m 29 (Build_shr_record (Z.pos m) false false) ltac:(simpl; lia))
    as [Hm1 _].
  fold r1 in Hm1. cbn [shr_m] in Hm1.
  assert (Hm1r : 2 ^ 23 <= shr_m r1 < 2 ^ 24).
  { rewrite Hm1. split.
    - apply Z.div_le_lower_bound; [lia|]. change (2 ^ 29 * 2 ^ 23) with (2 ^ 52). lia.
    - apply Z.div_lt_upper_bound; [lia|]. change (2 ^ 29 * 2 ^ 24) with (2 ^ 53). lia. }
  pose proof (round_nearest_even_range (shr_m r1) (loc_of_shr_record r1)) as Hrn.
  set (m2 := round_nearest_even (shr_m r1) (loc_of_shr_record r1)) in *.
  destruct m2 as [|q|q] eqn:Eq; [lia| |lia].
  destruct (Z.eq_dec (Z.pos q) (2 ^ 24)) as [Hq|Hq].
  - assert (Hdq : Z.pos (digits2_pos q) = 25).
    { apply digits2_pos_unique; [|lia]. rewrite Hq. change (25 - 1) with 24.
      split; [lia|]. apply Z.pow_lt_mono_r; lia. }
    unfold shr_fexp. cbn [Zdigits2 shr_record_of_loc]. rewrite Hdq.
    assert (Hf2 : fexp 24 128 (25 + (e + 29)) = e + 30) by (unfold fexp, emin; lia).
    rewrite Hf2. replace (e + 30 - (e + 29)) with 1 by lia.
    assert (Hq' : q = 16777216%positive) by lia.
    rewrite Hq'. cbn [shr SpecFloat.iter_pos shr_1 shr_m].
    destruct (Z.leb_spec (e + 29 + 1) (128 - 24)); [lia | reflexivity].
  - assert (Hdq : Z.pos (digits2_pos q) = 24).
    { apply digits2_pos_unique; [|lia]. change (24 - 1) with 23. lia. }
    unfold shr_fexp. cbn [Zdigits2 shr_record_of_loc]. rewrite Hdq.
    assert (Hf2 : fexp 24 128 (24 + (e + 29)) = e + 29) by (unfold fexp, emin; lia).
    rewrite Hf2, Z.sub_diag. cbn [shr shr_m].
    destruct (Z.leb_spec (e + 29) (128 - 24)); [lia | reflexivity].
Qed.

(** X19: a Python float of magnitude [2 ^ 128] or more (finite, mantissa [m]
    and exponent [e] of a binary64 number) cannot be written as a ['float']:
    once the seek has succeeded, [write] raises [OverflowError], and the file
    is left as the seek left it, nothing written. *)
Theorem float_too_large_raises (s : bool) (m : positive) (e base offset : Z)
    (whence : string) (f f0 : file) :
  is_float 52 11 (S754_finite s m e) = true ->
  2 ^ 128 <= Z.pos m * 2 ^ e ->
  seek (base + offset) whence f = (Ok tt, f0) ->
  write "float" (PyFloat (S754_finite s m e)) base offset whence f
  = (Raise OverflowError, f0) /\
  content f0 = content f.
Proof.
  intros Hv Hbig Hseek. split; [|apply (seek_ok_inv _ _ _ _ Hseek)].
  rewrite (write_fixed "float" ">f" Struct.ff) by constructor.
  rewrite (bind_ok _ _ _ _ _ Hseek).
  unfold pack_to_file, lift, mbind, M_bind.
  unfold Struct.pack. change (Struct.parse ">f") with (Some Struct.ff).
  cbn [Struct.as_double].
  rewrite (convert_overflow s m e Hv Hbig). reflexivity.
Qed.

Lemma float_too_large_raises_witness :
  write "float" (PyFloat (S754_finite false 4503599627370496 76)) 0 2 "start"
    (File [x01; x02; x03] 0)
  = (Raise OverflowError, File [x01; x02; x03] 2) /\
  content (File [x01; x02; x03] 2) = content (File [x01; x02; x03] 0).
Proof.
  apply (float_too_large_raises false 4503599627370496 76 0 2 "start"
           (File [x01; x02; x03] 0) (File [x01; x02; x03] 2)).
  - reflexivity.
  - vm_compute. discriminate.
  - reflexivity.
Defined.
